(* ===== verification/_CoqProject ===== *)
-Q . S2P
Prelude.v
Geometry.v
JsFloat.v
FloatSkin.v
Materials.v
Skeleton.v
Pose.v
Damping.v
Animator.v
Lifecycle.v
Maath.v
Book.v
Textures.v
Scene.v
Skinning.v
