(* ===== verification/Prelude.v ===== *)
(** * A verification development of the animated book slider

    The program ([src/src/components/Book.jsx]) renders a book as a stack
    of skinned page meshes.  Its parts and how they interact:

    - the page geometry builder (module level, lines 22-73): a three.js
      [BoxGeometry] of [PAGE_SEGMENTS] width segments is translated to
      span [0, PAGE_WIDTH]; a loop gives every vertex two bone indices
      and two blend weights.  It is built once and shared by all pages;
    - the bone chain of a page (the [useMemo] of [Page], lines 109-148):
      [PAGE_SEGMENTS + 1] bones, each the child of the previous one and
      offset by [SEGMENT_WIDTH], attached to a skinned mesh and bound;
    - the per-frame animator (the [useFrame] callback of [Page], lines
      152-184): from the props [opened], [bookClosed] and [number] it
      computes a target angle per bone and eases each bone's rotation
      toward it with maath's [easing.dampAngle], a library call;
    - the materials (lines 25-31, 76-89, 101-104, 126-140): four white
      materials shared by every page, two textured ones per page;
    - the book (the [Book] component, lines 197-211): one [Page] per
      descriptor of [pages], with [opened = page > index] and
      [bookClosed = page === 0 || page === pages.length] from the store's
      current page; the frame driver calls every page's callback;
    - the life of a page: a render re-evaluates the [useMemo] of the
      mesh on its dependencies [[number, picture, picture2]] (line 148),
      a frame runs the callback; the textures (lines 91-100) are
      preloaded at module load and requested by URL by every page; the
      JSX (lines 186-212) places each page's mesh at its depth.

    ** Files, in dependency order

    - [Prelude.v] (this file): JavaScript's [%] and truncation over exact
      rationals, [qnat] (a loop counter as a rational), the [qlra] tactic,
      the [book] hint database, [Proper] instances for setoid rewriting
      under [Qeq], and generic lemmas on floors, chunked lists and
      "eventually" over finitely many indices.
    - [Geometry.v]: the constants of lines 22-37 and a reference: the
      module-level builder of lines 39-73 over exact rationals (the box
      as six planes, [translate], [skin_binding], [skin_loop],
      [page_geometry]).  The program computes in binary64 ([FloatSkin.v]
      models that); the exact builder is what [FloatSkin.v] is compared
      with and what the bone chain of [Skeleton.v] is laid out from.
    - [Materials.v]: a store of textures and materials (an object is
      its index), [setTextureColorSpace] (25-31), the four shared base
      materials (76-89), the colour set-up of a page's textures (101-104)
      and its list [[...pageMaterials, front, back]] (126-140), for all
      pages ([build_pages]).  Theorems: pages share material objects only
      through the base prefix, at the same positions; the side faces of
      the box are white and the two large faces carry the page's own
      textures.
    - [Skeleton.v]: bones in an arena (a parent is an index), three.js's
      [Object3D.add] ([object_add]), the loop [bones_step]/[build_bones]
      (lines 110-123), [mesh.add]/[mesh.bind] ([make_page_mesh]).
      Theorems: the built chain; the rest pose by following parent links
      with fuel, terminating after exactly [i + 1] links.
    - [Pose.v]: world positions of the bones under any rotations, by
      the world matrices of three.js, with fuel.  Theorem: consecutive
      bones stay one segment apart (the page bends, it does not stretch).
    - [Damping.v]: maath's [easing] as it is written (v0.10), modelled
      from its source: [clamp], [repeat] and [deltaAngle], the [exp]
      easing, [damp] (a critically damped spring whose velocity lives on
      the rotation object as [__damp.velocity_y], with its [eps] snap,
      [maxSpeed] clamp and overshoot guard) and [dampAngle].  Lemma: one
      call never carries the value past its target.
    - [Animator.v]: [target_rotation] (157-160), [inside_curve_intensity]
      (166), [rotation_angle] (167-175), [target_of] (164), the call of
      [dampAngle] with its defaults ([dampAngle_call], 176-182),
      [damp_target], [frame_loop] (163-183), [use_frame] (152-184) on a
      state of the group rotation object and the bone rotation objects
      ([undefined] until the mesh is mounted), [run_frames] for
      sequences of frames.  Theorems: the effect of one frame, bone by
      bone; the group and bone 0 never move (the loop starts at 1); the
      curl grows on bones 0-7.
    - [Lifecycle.v]: the life of a page over renders (the [useMemo]
      remount on [[number, picture, picture2]], which gives fresh bones
      at rest) and frames ([page_step]); bounds on the target angles.
    - [Maath.v]: the analysis of the spring at the call of lines 176-182.
      Theorems: a frame never carries a bone past its target, whatever
      its velocity; from rest the bones follow the closed form
      [t^n (1 + n a) x_0] and reach the target pose exactly after finitely
      many frames; a remount of a closed book gives flat bones that stay
      flat while the hinge keeps its rotation; against the spec, the
      damping is not frame-rate independent, and the velocity left by
      one target carries a bone away from the next.
    - [JsFloat.v]: JavaScript numbers on the kernel's IEEE-754
      specification [SpecFloat]: binary64 arithmetic, literals,
      [Math.floor], [Math.max], [%], the [Float32Array] and [Uint16Array]
      stores.
    - [FloatSkin.v]: the module-level code (lines 39-73) in binary64 with
      the binary32 buffers of three.js ([BoxGeometry], [applyMatrix4],
      the skin loop).  Theorems, by [vm_compute] on the 322 vertices:
      the float geometry is within [10^-7] of the exact reference; the
      typed arrays are well formed; at the spine edge a weight is
      negative and at the far edge the nonexistent bone 31 has a weight.
    - [Book.v]: the props of each page and its z offset.  Theorems:
      opened pages are the prefix below [page]; stacking; a page turn
      opens exactly one page and, unless the book opens or closes,
      leaves the targets of the others alone.
    - [Textures.v]: the texture URLs; [useTexture.preload] and
      [useTexture] as react-three-fiber's [useLoader] on the cache of
      suspend-react, keyed by lists of URLs, with pending, resolved and
      rejected entries; the loads of a key ([load_all]) and their
      completion ([settle]) are events of the host.  Theorems: the
      preloading stores one key per URL, each once; the key a page
      suspends on is never a preloaded one, so every page suspends on
      its first render; once settled, a page gets the textures of its
      front and back URLs in that order, or the load error, at every
      render.
    - [Scene.v]: the flags of the mesh (lines 142-144) as properties of
      a JavaScript object and the JSX trees of [Page] and [Book].
      Theorem: culling stays on (line 144 writes [frustcumCulled]).
    - [Skinning.v]: three.js's skinning of a vertex
      ([SkinnedMesh.applyBoneTransform]): its four influences, the world
      frames of the bones and the inverses of [mesh.bind]; reading a
      bone the skeleton does not have is an error.  Theorems: in the
      rest pose, with the stored Float32 attributes, a vertex is either
      the far-edge one that reads bone 31 and fails, or it is scaled by
      its weight sum, within [10^-7] of 1.

    ** Numbers, bounds and fuel

    The program computes in binary64: [FloatSkin.v] runs the geometry in
    IEEE-754 ([SpecFloat], binary64 with [prec = 53], [emax = 1024];
    binary32 stores with [prec = 24], [emax = 128]), and the exact
    builder of [Geometry.v] over [Q] is its reference.  The animator and
    maath are over the Standard Library reals [R], because the code uses
    [sin] and [PI]; bounds on [PI] come from Machin's series.  [Uint16]
    storage is [Z.modulo] 65536.  The parent walk [world_x] takes fuel;
    [i + 1] is enough for bone [i] and is also necessary, which shows the
    chain has no cycle; [world_pose] walks the same links with the same
    fuel.  [dampAngle] does not wrap while the distance to the target is
    at most [PI]; the curl of a page, [0.15 * (PI / 2 + number * 0.8
    degrees)], keeps every target within that bound for pages numbered
    up to 637.  maath's spring is analysed through its closed form: from
    rest the distance after [n] frames is [t^n (1 + n a)] times the
    initial one, [a = 4 delta], [t = exp_maath(a)], bounded by
    [(t (1 + a))^n] (Bernoulli), and [t (1 + a) < 1]; the frame-rate and
    momentum theorems evaluate the spring at [delta = 1/4] and [1/2] in
    exact rationals ([t = 200/543] and [5/34]).  The rest-pose skinning
    theorem is checked on the 322 stored vertices by [vm_compute].

    ** Not modelled

    [UI.jsx] is not among the sources: its page list and current page
    are inputs.  The network behind a texture load is an event of the
    host (a load settles, loaded or failed); the reconciler of React
    (which retries a suspended render) and the drawing of WebGL are not
    modelled (the JSX tree is).  maath is modelled from its source over
    the reals: the rounding of its arithmetic in binary64 is not
    modelled, and a frame of [delta = 0], for which JavaScript's
    overshoot branch divides [0 / 0], is not covered by the theorems
    (they assume [delta > 0]).  The convergence of a bone that starts
    with a velocity (a page turned while it moves) is not proved: only
    from rest, the state of the fresh bones of a mount; the momentum
    theorem shows that such a bone can first move away.  Skinning is
    modelled in the plane of the rotations through three.js's CPU
    version; the GPU shader computes the same sum in its own precision
    and is not modelled. *)

From Stdlib Require Import QArith Qround Lia Lqa ZArith List Morphisms Setoid.
Import ListNotations.

Declare Scope book_scope.
Delimit Scope book_scope with book.

Create HintDb book.

(** ** JavaScript number operations over exact rationals *)

Local Open Scope Q_scope.

Arguments Qfloor : simpl never.

(** [Math.trunc]: rounding toward zero, used by the [%] operator. *)
Definition js_trunc (q : Q) : Z :=
  if Qle_bool 0 q then Qfloor q else Z.opp (Qfloor (- q)).

(** [a % b]: the remainder has the sign of the dividend
    ([a - b * trunc (a / b)]). *)
Definition js_rem (a b : Q) : Q := a - b * inject_Z (js_trunc (a / b)).

Notation "a '%%' b" := (js_rem a b) (at level 40, left associativity) : book_scope.

(** ** Tactics *)

(** [lra] reads [/ 2] as an atom: fold the inverses of integer constants
    into rational constants first. *)
Ltac qconst := unfold Qdiv in *;
  repeat match goal with
  | |- context [Qinv (Zpos ?p # 1)] =>
      let c := eval vm_compute in (Qinv (Zpos p # 1)) in
      change (Qinv (Zpos p # 1)) with c
  | H : context [Qinv (Zpos ?p # 1)] |- _ =>
      let c := eval vm_compute in (Qinv (Zpos p # 1)) in
      change (Qinv (Zpos p # 1)) with c in H
  end.

Ltac qlra := qconst; lra.

(** ** Compatibility with [Qeq] *)

Lemma Qle_bool_compat (x y : Q) : x == y -> Qle_bool 0 x = Qle_bool 0 y.
Proof.
  intros E. destruct (Qle_bool 0 y) eqn:Hy.
  - apply Qle_bool_iff. apply Qle_bool_iff in Hy. now rewrite E.
  - apply Bool.not_true_iff_false. intros Hx. apply Qle_bool_iff in Hx.
    rewrite E in Hx. apply Qle_bool_iff in Hx. congruence.
Qed.

#[export] Instance js_trunc_proper : Proper (Qeq ==> eq) js_trunc.
Proof.
  intros x y E. unfold js_trunc. rewrite (Qle_bool_compat x y E).
  destruct (Qle_bool 0 y); [|f_equal]; apply Qfloor_comp; now rewrite E.
Qed.

#[export] Instance js_rem_proper : Proper (Qeq ==> Qeq ==> Qeq) js_rem.
Proof.
  intros a a' Ea b b' Eb. unfold js_rem.
  rewrite (js_trunc_proper (a / b) (a' / b')) by (now rewrite Ea, Eb).
  now rewrite Ea, Eb.
Qed.

Lemma Qfloor_nonneg (x : Q) : 0 <= x -> (0 <= Qfloor x)%Z.
Proof.
  intros H. rewrite <- (Qfloor_Z 0). apply Qfloor_resp_le. exact H.
Qed.

Lemma Qdiv_mul_cancel (a b : Q) : ~ b == 0 -> b * (a / b) == a.
Proof. intros H. field. exact H. Qed.

(** The floor remainder lies in [[0, b)]. *)
Lemma floor_rem_bounds (a b : Q) :
  0 < b -> 0 <= a - b * inject_Z (Qfloor (a / b)) < b.
Proof.
  intros Hb. pose proof (Qfloor_le (a / b)) as Fl.
  pose proof (Qlt_floor (a / b)) as Fu. rewrite inject_Z_plus in Fu.
  change (inject_Z 1) with 1 in Fu.
  assert (E : b * (a / b) == a) by (apply Qdiv_mul_cancel; lra).
  split.
  - apply (Qmult_le_l _ _ b) in Fl; [|exact Hb]. lra.
  - apply (Qmult_lt_l _ _ b) in Fu; [|exact Hb]. lra.
Qed.

#[export] Hint Resolve Qfloor_nonneg floor_rem_bounds : book.

(** A JavaScript loop counter as a rational. *)
Definition qnat (n : nat) : Q := inject_Z (Z.of_nat n).

Lemma qnat_nonneg (n : nat) : 0 <= qnat n.
Proof. unfold qnat. change 0 with (inject_Z 0). rewrite <- Zle_Qle. lia. Qed.

Lemma qnat_le (m n : nat) : (m <= n)%nat -> qnat m <= qnat n.
Proof. intros H. unfold qnat. rewrite <- Zle_Qle. lia. Qed.

Lemma qnat_pos (n : nat) : (0 < n)%nat -> 0 < qnat n.
Proof. intros H. unfold qnat. change 0 with (inject_Z 0). rewrite <- Zlt_Qlt. lia. Qed.

Lemma qnat_succ (n : nat) : qnat (S n) == qnat n + 1.
Proof. unfold qnat. rewrite Nat2Z.inj_succ, <- Z.add_1_r, inject_Z_plus. reflexivity. Qed.

#[export] Hint Resolve qnat_nonneg qnat_le qnat_pos : book.

(** A pointwise relation of two lists, decided by a boolean test. *)
Fixpoint forallb2 {A B} (f : A -> B -> bool) (l1 : list A) (l2 : list B) : bool :=
  match l1, l2 with
  | [], [] => true
  | a :: l1', b :: l2' => f a b && forallb2 f l1' l2'
  | _, _ => false
  end.

Lemma forallb2_Forall2 {A B} (P : A -> B -> Prop) (f : A -> B -> bool)
    (l1 : list A) (l2 : list B) :
  (forall a b, f a b = true -> P a b) -> forallb2 f l1 l2 = true -> Forall2 P l1 l2.
Proof.
  intros Hf. revert l2. induction l1 as [|a l1 IH]; intros [|b l2] H; try discriminate;
    constructor; apply andb_prop in H as [H1 H2]; auto.
Qed.

Lemma forallb_Forall {A} (P : A -> Prop) (f : A -> bool) (l : list A) :
  (forall a, f a = true -> P a) -> forallb f l = true -> Forall P l.
Proof.
  intros Hf H. apply Forall_forall. intros a Ha. apply Hf.
  exact (proj1 (forallb_forall f l) H a Ha).
Qed.

(** The items of a flat attribute array of item size 4. *)
Fixpoint quads {A} (l : list A) : list (A * A * A * A) :=
  match l with
  | a :: b :: c :: d :: l' => (a, b, c, d) :: quads l'
  | _ => []
  end.

(** Turn a boolean test made of conjunctions of comparisons into the
    propositions it decides. *)
Ltac bool_props H :=
  repeat rewrite ?andb_true_iff, ?Qle_bool_iff, ?Qeq_bool_iff, ?Z.leb_le,
    ?Z.ltb_lt, ?Z.eqb_eq in H.

(** ** Eventually, for finitely many indices at once *)

Lemma eventually_forall_lt (len : nat) (P : nat -> nat -> Prop) :
  (forall i, (i < len)%nat -> exists N, forall n, (N <= n)%nat -> P i n) ->
  exists N, forall n, (N <= n)%nat -> forall i, (i < len)%nat -> P i n.
Proof.
  induction len as [|len IH]; intros H.
  - exists 0%nat. intros n _ i Hi. lia.
  - destruct IH as [N1 H1]; [intros i Hi; apply H; lia|].
    destruct (H len (Nat.lt_succ_diag_r len)) as [N2 H2].
    exists (Nat.max N1 N2). intros n Hn i Hi.
    destruct (Nat.eq_dec i len) as [->|Hne]; [apply H2; lia | apply H1; lia].
Qed.
