(* ===== verification/Geometry.v ===== *)
(** * The page geometry and its skin binding

    Models the module-level code of [src/src/components/Book.jsx]: the
    page constants (lines 22-23, 33-37), the [BoxGeometry] the page is cut
    from (three.js, modelled from its contract: six planes, each a grid of
    vertices), the [translate] of line 47 and the loop of lines 54-63 that
    pushes a [skinIndex] and a [skinWeight] quadruple per vertex, stored
    by [setAttribute] (lines 65-73) in a [Uint16] and a [Float32] buffer.

    This file is the exact-arithmetic reference of that code: every
    operation is computed in rationals [Q], the division and [%] of lines
    58-59 exactly and the [Float32] stores as the identity.  It is what
    the code computes if its numbers were exact, not what the program
    computes; the program's own arithmetic, binary64 with binary32
    stores, is [FloatSkin.v], whose theorems compare the two vertex by
    vertex and show where rounding makes them differ (the edge weights,
    the bindings at the joints).  The builder is a function of the page
    dimensions and of the segment count, inside [Section Builder];
    [pageGeometry] applies it to the constants of the source, and
    [vm_compute] evaluates it. *)

From Stdlib Require Import QArith Qround Lia Lqa ZArith List.
From S2P Require Import Prelude.
Import ListNotations.

Local Open Scope Q_scope.

(** ** Constants of [Book.jsx] *)

Definition PAGE_WIDTH : Q := 148 # 100.
Definition PAGE_HEIGHT : Q := 21 # 10.
Definition PAGE_DEPTH : Q := 3 # 1000.
Definition PAGE_SEGMENTS : nat := 30.
Definition SEGMENT_WIDTH : Q := PAGE_WIDTH / qnat PAGE_SEGMENTS.

(** ** Vertices and the three.js box *)

Record vec3 := Vec3 { vx : Q; vy : Q; vz : Q }.

Inductive axis := AxisX | AxisY | AxisZ.

(** [vector[a] = q] *)
Definition set_axis (a : axis) (q : Q) (v : vec3) : vec3 :=
  match a with
  | AxisX => Vec3 q (vy v) (vz v)
  | AxisY => Vec3 (vx v) q (vz v)
  | AxisZ => Vec3 (vx v) (vy v) q
  end.

(** The arguments of three.js [BoxGeometry.buildPlane]. *)
Record plane := Plane {
  pl_u : axis; pl_v : axis; pl_w : axis;
  pl_udir : Q; pl_vdir : Q;
  pl_width : Q; pl_height : Q; pl_depth : Q;
  pl_gridX : nat; pl_gridY : nat;
  pl_materialIndex : nat }.

(** The vertex of row [iy], column [ix] of a plane. *)
Definition plane_vertex (pl : plane) (iy ix : nat) : vec3 :=
  let segmentWidth := pl_width pl / qnat (pl_gridX pl) in
  let segmentHeight := pl_height pl / qnat (pl_gridY pl) in
  let x := qnat ix * segmentWidth - pl_width pl / 2 in
  let y := qnat iy * segmentHeight - pl_height pl / 2 in
  set_axis (pl_w pl) (pl_depth pl / 2)
    (set_axis (pl_v pl) (y * pl_vdir pl)
       (set_axis (pl_u pl) (x * pl_udir pl) (Vec3 0 0 0))).

(** Rows outer, columns inner, as the two nested loops of [buildPlane]. *)
Definition build_plane (pl : plane) : list vec3 :=
  flat_map (fun iy => map (plane_vertex pl iy) (seq 0 (S (pl_gridX pl))))
           (seq 0 (S (pl_gridY pl))).

(** The six planes of [new BoxGeometry(width, height, depth,
    widthSegments, heightSegments, depthSegments)], in the order px, nx,
    py, ny, pz, nz, with material indices 0 to 5. *)
Definition box_planes (width height depth : Q)
    (widthSegments heightSegments depthSegments : nat) : list plane :=
  [ Plane AxisZ AxisY AxisX (-1) (-1) depth height width
          depthSegments heightSegments 0;
    Plane AxisZ AxisY AxisX 1 (-1) depth height (- width)
          depthSegments heightSegments 1;
    Plane AxisX AxisZ AxisY 1 1 width depth height
          widthSegments depthSegments 2;
    Plane AxisX AxisZ AxisY 1 (-1) width depth (- height)
          widthSegments depthSegments 3;
    Plane AxisX AxisY AxisZ 1 (-1) width height depth
          widthSegments heightSegments 4;
    Plane AxisX AxisY AxisZ (-1) (-1) width height (- depth)
          widthSegments heightSegments 5 ].

Definition box_positions (width height depth : Q)
    (widthSegments heightSegments depthSegments : nat) : list vec3 :=
  flat_map build_plane
    (box_planes width height depth widthSegments heightSegments depthSegments).

(** [geometry.translate(dx, dy, dz)] on the position attribute. *)
Definition translate (dx dy dz : Q) (ps : list vec3) : list vec3 :=
  map (fun p => Vec3 (vx p + dx) (vy p + dy) (vz p + dz)) ps.

(** [new Uint16BufferAttribute(array, 4)] stores each entry modulo 2^16. *)
Definition to_uint16 (z : Z) : Z := Z.modulo z 65536.

(** A geometry with its three vertex attributes. *)
Record geometry := Geometry {
  position : list vec3;
  attr_skinIndex : list Z;
  attr_skinWeight : list Q }.

(** ** The builder *)

Section Builder.
Variables (width height depth : Q) (segments : nat).

Definition segment_width : Q := width / qnat segments.

  (** Lines 57-59: the bone index and blend fraction of a vertex. *)
Definition skin_binding (x : Q) : Z * Q :=
    let skinIndex := Z.max 0 (Qfloor (x / segment_width)) in
    let skinWeight := js_rem x segment_width / segment_width in
    (skinIndex, skinWeight).

  (** Lines 54-63: one iteration per vertex pushes four indices and
      four weights onto the two arrays. *)
Fixpoint skin_loop (ps : list vec3) (skinIndexes : list Z)
      (skinWeights : list Q) : list Z * list Q :=
    match ps with
    | [] => (skinIndexes, skinWeights)
    | p :: ps' =>
        let '(skinIndex, skinWeight) := skin_binding (vx p) in
        skin_loop ps' (skinIndexes ++ [skinIndex; skinIndex + 1; 0; 0]%Z)
                      (skinWeights ++ [1 - skinWeight; skinWeight; 0; 0])
    end.

  (** Lines 39-73: build the box, translate it to [0, width], bind the
      vertices and set the two attributes. *)
Definition page_geometry : geometry :=
    let pos := translate (width / 2) 0 0
                 (box_positions width height depth segments 2 1) in
    let '(skinIndexes, skinWeights) := skin_loop pos [] [] in
    Geometry pos (map to_uint16 skinIndexes) skinWeights.
End Builder.

Definition pageGeometry : geometry :=
  page_geometry PAGE_WIDTH PAGE_HEIGHT PAGE_DEPTH PAGE_SEGMENTS.
