(* ===== verification/JsFloat.v ===== *)
(** * JavaScript numbers as IEEE-754 binary64

    The skin loop of [Book.jsx] (lines 54-63) runs on JavaScript numbers
    and stores its results in typed arrays.  This file gives the
    operations it uses their ECMAScript meaning on the kernel's
    executable specification of IEEE-754 ([SpecFloat.spec_float], the
    same specification the primitive floats are checked against):
    [+ - * /] are [SFadd]/[SFsub]/[SFmul]/[SFdiv] at binary64
    ([prec = 53], [emax = 1024]) with rounding to nearest even; a decimal
    literal [n.d] is the correctly rounded quotient of two integers;
    [Math.floor], [Math.max], [%] (ECMAScript's [Number::remainder],
    which is exact), the store into a [Float32Array] ([Math.fround],
    rounding at binary32: [prec = 24], [emax = 128]) and into a
    [Uint16Array] ([ToUint16]).

    [num_to_Q] reads a finite number as the exact rational it denotes;
    [num_floor_Z_spec] shows that the floor of the model is the floor
    [Qfloor] of that rational, which ties this file to the exact model of
    [Prelude.v]. *)

From Stdlib Require Import ZArith QArith Qround Lia List.
From Stdlib Require Import Floats.SpecFloat.
Import ListNotations.

Local Open Scope Z_scope.

(** ** Numbers and arithmetic *)

Definition number := spec_float.

Definition num_add : number -> number -> number := SFadd 53 1024.
Definition num_sub : number -> number -> number := SFsub 53 1024.
Definition num_mul : number -> number -> number := SFmul 53 1024.
Definition num_div : number -> number -> number := SFdiv 53 1024.
Definition num_opp : number -> number := SFopp.
Definition num_lt : number -> number -> bool := SFltb.

(** An integer as a number (exact below [2^53]). *)
Definition num_of_Z (z : Z) : number := binary_normalize 53 1024 z 0 false.

Definition num_of_nat (n : nat) : number := num_of_Z (Z.of_nat n).

(** The decimal literal [n / d], rounded once. *)
Definition num_lit (n d : Z) : number := num_div (num_of_Z n) (num_of_Z d).

(** ** Typed arrays *)

(** A store into a [Float32Array] ([Math.fround]): round to binary32,
    then read back as the binary64 number with the same value. *)
Definition fround (x : number) : number :=
  match x with
  | S754_finite s m e =>
      match binary_round 24 128 s m e with
      | S754_finite s' m' e' => binary_round 53 1024 s' m' e'
      | y => y
      end
  | _ => x
  end.

(** [ToUint16]: [NaN], zeros and infinities give 0, a finite number is
    truncated toward zero and taken modulo [2^16]. *)
Definition num_to_uint16 (x : number) : Z :=
  match x with
  | S754_finite s m e => Z.modulo (cond_Zopp s (Z.shiftl (Zpos m) e)) 65536
  | _ => 0
  end.

(** ** [Math] and [%] *)

(** The greatest integer below a finite number: its mantissa shifted by
    its exponent, rounding toward minus infinity. *)
Definition num_floor_Z (x : number) : Z :=
  match x with
  | S754_finite s m e => Z.shiftl (cond_Zopp s (Zpos m)) e
  | _ => 0
  end.

(** [Math.floor]: [NaN], infinities and zeros are returned unchanged. *)
Definition math_floor (x : number) : number :=
  match x with
  | S754_finite _ _ _ => num_of_Z (num_floor_Z x)
  | _ => x
  end.

(** [Math.max(a, b)]: [NaN] if either is, [+0] above [-0]. *)
Definition math_max (a b : number) : number :=
  match a, b with
  | S754_nan, _ | _, S754_nan => S754_nan
  | S754_zero sa, S754_zero sb => S754_zero (andb sa sb)
  | _, _ => if num_lt a b then b else a
  end.

(** [n % d] ([Number::remainder]): [NaN] for an infinite dividend or a
    zero divisor; the dividend for an infinite divisor or a zero
    dividend; otherwise [n - d * q] with [q] the quotient truncated
    toward zero, computed exactly on the aligned mantissas, with the sign
    of [n]. *)
Definition num_rem (n d : number) : number :=
  match n, d with
  | S754_nan, _ | _, S754_nan | S754_infinity _, _ | _, S754_zero _ => S754_nan
  | _, S754_infinity _ | S754_zero _, _ => n
  | S754_finite sn mn en, S754_finite _ md ed =>
      let e := Z.min en ed in
      match Z.rem (Zpos (fst (shl_align mn en e))) (Zpos (fst (shl_align md ed e))) with
      | Zpos r => binary_round 53 1024 sn r e
      | _ => S754_zero sn
      end
  end.

(** ** The value of a number *)

Definition num_to_Q (x : number) : option Q :=
  match x with
  | S754_zero _ => Some 0%Q
  | S754_finite s m e =>
      let z := cond_Zopp s (Zpos m) in
      match e with
      | Zneg p => Some (Qmake z (Pos.pow 2 p))
      | _ => Some (inject_Z (Z.shiftl z e))
      end
  | _ => None
  end.

(** The value of a finite number, 0 for the others. *)
Definition num_Q (x : number) : Q :=
  match num_to_Q x with Some q => q | None => 0%Q end.

(** ** Floor *)

Lemma num_floor_Z_spec (x : number) (q : Q) :
  num_to_Q x = Some q -> num_floor_Z x = Qfloor q.
Proof.
  destruct x as [s|s| |s m e]; intros H; try discriminate.
  - injection H as <-. reflexivity.
  - unfold num_floor_Z. destruct e as [|p|p]; injection H as <-;
      try (symmetry; apply Qfloor_Z).
    simpl Qfloor. change (Z.shiftl _ (Zneg p)) with (Z.shiftr (cond_Zopp s (Zpos m)) (Zpos p)).
    rewrite Z.shiftr_div_pow2 by lia. rewrite Pos2Z.inj_pow. reflexivity.
Qed.

(** [ToUint16] of a finite number below [2^16] in absolute value is its
    truncation, taken modulo [2^16]. *)
Lemma num_to_uint16_nonneg (x : number) (q : Q) :
  num_to_Q x = Some q -> (0 <= q)%Q -> num_to_uint16 x = Z.modulo (Qfloor q) 65536.
Proof.
  intros Hx Hq. rewrite <- (num_floor_Z_spec x q Hx).
  destruct x as [s|s| |s m e]; try discriminate; [reflexivity|].
  destruct s; [|reflexivity].
  exfalso. simpl in Hx. destruct e as [|p|p]; injection Hx as <-; unfold Qle in Hq; simpl in Hq.
  - lia.
  - change (Pos.iter (Z.mul 2) (Z.neg m) p) with (Z.shiftl (Z.neg m) (Zpos p)) in Hq.
    rewrite Z.shiftl_mul_pow2 in Hq by lia. pose proof (Z.pow_pos_nonneg 2 (Zpos p)). nia.
  - lia.
Qed.
