(* ===== verification/FloatSkin.v ===== *)
(** * The page geometry in floating point

    [Geometry.v] runs the module-level code of [Book.jsx] (lines 33-73)
    on exact rationals.  The program runs it on JavaScript numbers, and
    three.js stores the positions and the weights in [Float32Array]s.
    This file runs the same code on the IEEE-754 model of [JsFloat.v]:
    the constants (lines 33-37) as rounded literals, three.js's
    [BoxGeometry] (its [buildPlane] arithmetic in binary64, the vertices
    stored in a [Float32BufferAttribute]), [translate] (line 47, the
    matrix product of [Vector3.applyMatrix4], stored back in binary32)
    and the skin loop (lines 54-63) with [Math.floor], [Math.max], [%]
    and the two typed arrays of lines 65-73.

    The whole float geometry is computed by the kernel ([vm_compute]) and
    compared with the exact model: the positions agree to within
    [10^-7], the point [index + weight] of every vertex to within
    [10^-6] of a segment, and every first index names a bone.  The
    rounding also shows what the exact model cannot: the spine edge
    [x = 0] lands at [x < 0] and gets a negative weight, and the far edge
    gives the bone [PAGE_SEGMENTS + 1], which does not exist, a weight
    above 0. *)

From Stdlib Require Import ZArith QArith Qround Qabs Lia List Bool.
From Stdlib Require Import Floats.SpecFloat.
From S2P Require Import Prelude Geometry JsFloat.
Import ListNotations.

Local Open Scope Z_scope.

(** ** Constants of [Book.jsx] as numbers *)

Definition num_zero : number := S754_zero false.
Definition num_one : number := num_of_Z 1.
Definition num_two : number := num_of_Z 2.

Definition PAGE_WIDTH_f64 : number := num_lit 148 100.
Definition PAGE_HEIGHT_f64 : number := num_lit 21 10.
Definition PAGE_DEPTH_f64 : number := num_lit 3 1000.
Definition SEGMENT_WIDTH_f64 : number := num_div PAGE_WIDTH_f64 (num_of_nat PAGE_SEGMENTS).

(** ** The three.js box in floating point *)

Record fvec3 := FVec3 { fx : number; fy : number; fz : number }.

(** [vector[a] = q] *)
Definition fset_axis (a : axis) (q : number) (v : fvec3) : fvec3 :=
  match a with
  | AxisX => FVec3 q (fy v) (fz v)
  | AxisY => FVec3 (fx v) q (fz v)
  | AxisZ => FVec3 (fx v) (fy v) q
  end.

Record fplane := FPlane {
  fp_u : axis; fp_v : axis; fp_w : axis;
  fp_udir : number; fp_vdir : number;
  fp_width : number; fp_height : number; fp_depth : number;
  fp_gridX : nat; fp_gridY : nat;
  fp_materialIndex : nat }.

(** The vertex of row [iy], column [ix], with [buildPlane]'s operations
    in their order. *)
Definition fplane_vertex (pl : fplane) (iy ix : nat) : fvec3 :=
  let segmentWidth := num_div (fp_width pl) (num_of_nat (fp_gridX pl)) in
  let segmentHeight := num_div (fp_height pl) (num_of_nat (fp_gridY pl)) in
  let widthHalf := num_div (fp_width pl) num_two in
  let heightHalf := num_div (fp_height pl) num_two in
  let depthHalf := num_div (fp_depth pl) num_two in
  let x := num_sub (num_mul (num_of_nat ix) segmentWidth) widthHalf in
  let y := num_sub (num_mul (num_of_nat iy) segmentHeight) heightHalf in
  fset_axis (fp_w pl) depthHalf
    (fset_axis (fp_v pl) (num_mul y (fp_vdir pl))
       (fset_axis (fp_u pl) (num_mul x (fp_udir pl)) (FVec3 num_zero num_zero num_zero))).

Definition fbuild_plane (pl : fplane) : list fvec3 :=
  flat_map (fun iy => map (fplane_vertex pl iy) (seq 0 (S (fp_gridX pl))))
           (seq 0 (S (fp_gridY pl))).

Definition fbox_planes (width height depth : number)
    (widthSegments heightSegments depthSegments : nat) : list fplane :=
  let m1 := num_of_Z (-1) in
  [ FPlane AxisZ AxisY AxisX m1 m1 depth height width
           depthSegments heightSegments 0;
    FPlane AxisZ AxisY AxisX num_one m1 depth height (num_opp width)
           depthSegments heightSegments 1;
    FPlane AxisX AxisZ AxisY num_one num_one width depth height
           widthSegments depthSegments 2;
    FPlane AxisX AxisZ AxisY num_one m1 width depth (num_opp height)
           widthSegments depthSegments 3;
    FPlane AxisX AxisY AxisZ num_one m1 width height depth
           widthSegments heightSegments 4;
    FPlane AxisX AxisY AxisZ m1 m1 width height (num_opp depth)
           widthSegments heightSegments 5 ].

(** A vertex stored in a [Float32BufferAttribute] and read back. *)
Definition f32_store (v : fvec3) : fvec3 :=
  FVec3 (fround (fx v)) (fround (fy v)) (fround (fz v)).

Definition fbox_positions (width height depth : number)
    (widthSegments heightSegments depthSegments : nat) : list fvec3 :=
  map f32_store (flat_map fbuild_plane
    (fbox_planes width height depth widthSegments heightSegments depthSegments)).

(** [Matrix4.makeTranslation]: the sixteen elements, column-major. *)
Definition makeTranslation (tx ty tz : number) : list number :=
  [num_one; num_zero; num_zero; num_zero;
   num_zero; num_one; num_zero; num_zero;
   num_zero; num_zero; num_one; num_zero;
   tx; ty; tz; num_one].

(** [Vector3.applyMatrix4]. *)
Definition apply_matrix4 (e : list number) (p : fvec3) : fvec3 :=
  let el k := nth k e num_zero in
  let x := fx p in let y := fy p in let z := fz p in
  let w := num_div num_one
             (num_add (num_add (num_add (num_mul (el 3%nat) x) (num_mul (el 7%nat) y))
                               (num_mul (el 11%nat) z)) (el 15%nat)) in
  let row (a b c d : nat) :=
    num_mul (num_add (num_add (num_add (num_mul (el a) x) (num_mul (el b) y))
                              (num_mul (el c) z)) (el d)) w in
  FVec3 (row 0 4 8 12)%nat (row 1 5 9 13)%nat (row 2 6 10 14)%nat.

(** [geometry.translate]: every position through [applyMatrix4], stored
    back with [setXYZ]. *)
Definition ftranslate (tx ty tz : number) (ps : list fvec3) : list fvec3 :=
  map (fun p => f32_store (apply_matrix4 (makeTranslation tx ty tz) p)) ps.

(** ** The skin loop in floating point *)

(** Lines 57-59. *)
Definition f_skin_binding (x : number) : number * number :=
  let skinIndex := math_max (num_of_Z 0) (math_floor (num_div x SEGMENT_WIDTH_f64)) in
  let skinWeight := num_div (num_rem x SEGMENT_WIDTH_f64) SEGMENT_WIDTH_f64 in
  (skinIndex, skinWeight).

(** Lines 54-63. *)
Fixpoint f_skin_loop (ps : list fvec3) (skinIndexes skinWeights : list number)
    : list number * list number :=
  match ps with
  | [] => (skinIndexes, skinWeights)
  | p :: ps' =>
      let '(skinIndex, skinWeight) := f_skin_binding (fx p) in
      f_skin_loop ps' (skinIndexes ++ [skinIndex; num_add skinIndex num_one; num_zero; num_zero])
                      (skinWeights ++ [num_sub num_one skinWeight; skinWeight; num_zero; num_zero])
  end.

Record fgeometry := FGeometry {
  fposition : list fvec3;
  fskinIndex : list Z;
  fskinWeight : list number }.

(** Lines 39-73: the box, its translation, the loop and the two typed
    arrays ([Uint16BufferAttribute], [Float32BufferAttribute]). *)
Definition pageGeometry_f64 : fgeometry :=
  let pos := ftranslate (num_div PAGE_WIDTH_f64 num_two) num_zero num_zero
               (fbox_positions PAGE_WIDTH_f64 PAGE_HEIGHT_f64 PAGE_DEPTH_f64 PAGE_SEGMENTS 2 1) in
  let '(skinIndexes, skinWeights) := f_skin_loop pos [] [] in
  FGeometry pos (map num_to_uint16 skinIndexes) (map fround skinWeights).

(** The binding of every vertex: its first index and its second weight
    (the weight of the next bone). *)
Definition vertex_bindings {A} (skinIndexes : list Z) (skinWeights : list A) : list (Z * A) :=
  map (fun '((k, _, _, _), (_, w, _, _)) => (k, w)) (combine (quads skinIndexes) (quads skinWeights)).

Definition within (eps a b : Q) : bool := Qle_bool (Qabs (a - b)) eps.

Lemma within_spec (eps a b : Q) : within eps a b = true -> (Qabs (a - b) <= eps)%Q.
Proof. apply Qle_bool_imp_le. Qed.

Local Open Scope Q_scope.

(** ** The float geometry against the exact one *)

(** C15: The positions the program computes are those of the exact model
    of [Geometry.v] to within [10^-7] in every coordinate, vertex by
    vertex, and the point [index + weight] at which each vertex is bound
    is the exact one to within [10^-6] of a segment: rounding moves no
    vertex to another place on the chain. *)
Theorem float_geometry_refines :
  Forall2 (fun pf pq => Qabs (num_Q (fx pf) - vx pq) <= 1 # 10000000 /\
                        Qabs (num_Q (fy pf) - vy pq) <= 1 # 10000000 /\
                        Qabs (num_Q (fz pf) - vz pq) <= 1 # 10000000)
          (fposition pageGeometry_f64) (position pageGeometry) /\
  Forall2 (fun bf bq => Qabs ((inject_Z (fst bf) + num_Q (snd bf)) -
                              (inject_Z (fst bq) + snd bq)) <= 1 # 1000000)
          (vertex_bindings (fskinIndex pageGeometry_f64) (fskinWeight pageGeometry_f64))
          (vertex_bindings (attr_skinIndex pageGeometry) (attr_skinWeight pageGeometry)).
Proof.
  split.
  - apply (forallb2_Forall2 _ (fun pf pq => within (1 # 10000000) (num_Q (fx pf)) (vx pq) &&
             within (1 # 10000000) (num_Q (fy pf)) (vy pq) &&
             within (1 # 10000000) (num_Q (fz pf)) (vz pq))).
    + intros pf pq H. rewrite !andb_true_iff in H.
      destruct H as [[Hx Hy] Hz]. auto using within_spec.
    + vm_compute. reflexivity.
  - apply (forallb2_Forall2 _ (fun bf bq => within (1 # 1000000)
             (inject_Z (fst bf) + num_Q (snd bf)) (inject_Z (fst bq) + snd bq))).
    + intros bf bq H. exact (within_spec _ _ _ H).
    + vm_compute. reflexivity.
Qed.


(** C16: The typed arrays of the program are well formed: 322 items of
    four entries each; every index item is [[k, k + 1, 0, 0]] with
    [0 <= k <= PAGE_SEGMENTS], so that the first index always names a
    bone; every weight item is [[a, b, 0, 0]] with [b] within [10^-6] of
    [[0, 1]] and [a + b] within [10^-7] of 1 (the binary32 weights do not
    always sum to 1 exactly). *)
Theorem float_skin_attributes_bounds :
  length (fskinIndex pageGeometry_f64) = (4 * 322)%nat /\
  length (fskinWeight pageGeometry_f64) = (4 * 322)%nat /\
  Forall (fun '(a, b, c, d) => (0 <= a <= Z.of_nat PAGE_SEGMENTS)%Z /\ b = (a + 1)%Z /\
                               c = 0%Z /\ d = 0%Z)
         (quads (fskinIndex pageGeometry_f64)) /\
  Forall (fun '(a, b, c, d) => - (1 # 1000000) <= num_Q b <= 1 /\
                               Qabs (num_Q a + num_Q b - 1) <= 1 # 10000000 /\
                               c = num_zero /\ d = num_zero)
         (quads (fskinWeight pageGeometry_f64)).
Proof.
  split; [vm_compute; reflexivity|]. split; [vm_compute; reflexivity|]. split.
  - apply (forallb_Forall _ (fun '(a, b, c, d) =>
             (0 <=? a)%Z && (a <=? 30)%Z && (b =? a + 1)%Z && (c =? 0)%Z && (d =? 0)%Z)).
    + intros [[[a b] c] d] H. cbn in H |- *. bool_props H. unfold PAGE_SEGMENTS. lia.
    + vm_compute. reflexivity.
  - apply (forallb_Forall _ (fun '(a, b, c, d) =>
             Qle_bool (- (1 # 1000000)) (num_Q b) && Qle_bool (num_Q b) 1 &&
             within (1 # 10000000) (num_Q a + num_Q b) 1 &&
             match c, d with S754_zero false, S754_zero false => true | _, _ => false end)).
    + intros [[[a b] c] d] H. rewrite !andb_true_iff, !Qle_bool_iff in H.
      destruct H as [[[Hb0 Hb1] Hab] Hcd]. apply within_spec in Hab.
      destruct c as [[]| | |]; try discriminate; destruct d as [[]| | |]; try discriminate.
      repeat split; auto.
    + vm_compute. reflexivity.
Qed.

(** C17: Rounding puts weights outside [[0, 1]] at both edges of the
    page.  Vertex 6 (the first of the [-x] face) lies at [x = 0] in the
    exact model; after the binary32 store of [-PAGE_WIDTH / 2] and the
    translation it lies at [x < 0], and since [%] keeps the sign of its
    dividend it is bound to bone 0 with a negative weight on bone 1.
    Vertex 0 (the first of the [+x] face) lies at [x = PAGE_WIDTH]; it
    gets the indices [[30, 31, 0, 0]] and, since [x % SEGMENT_WIDTH] is
    not 0 there, a positive weight on index 31, a bone the skeleton of
    31 bones does not have. *)
Theorem float_edge_weights :
  (exists p q w, nth_error (fposition pageGeometry_f64) 6 = Some p /\
     nth_error (position pageGeometry) 6 = Some q /\ vx q == 0 /\ num_Q (fx p) < 0 /\
     nth_error (vertex_bindings (fskinIndex pageGeometry_f64) (fskinWeight pageGeometry_f64)) 6
       = Some (0%Z, w) /\ num_Q w < 0) /\
  (exists q w, nth_error (position pageGeometry) 0 = Some q /\ vx q == PAGE_WIDTH /\
     nth_error (quads (fskinIndex pageGeometry_f64)) 0 = Some (30, 31, 0, 0)%Z /\
     nth_error (vertex_bindings (fskinIndex pageGeometry_f64) (fskinWeight pageGeometry_f64)) 0
       = Some (30%Z, w) /\ 0 < num_Q w).
Proof.
  split; repeat eexists; vm_compute; reflexivity.
Qed.
