(* ===== verification/Materials.v ===== *)
(** * The materials of the pages

    Models the materials and textures of [src/src/components/Book.jsx]:
    [setTextureColorSpace] (lines 25-31), the four white base materials
    [pageMaterials] created once at module level (lines 76-89), the
    colour-space set-up of the two textures of a page (lines 101-104) and
    the material list of a page (lines 126-140): the four shared base
    materials spread by reference, then two fresh textured materials.

    Three.js objects live in a store (an arena per kind, an object is its
    index), so the sharing of the base materials between pages is the
    equality of indices.  The theorems show that every page's list starts
    with the same four shared materials (so a change to one of them
    through one page is seen by every page) and that no other material
    is shared, that the faces of the box that get a texture are
    exactly its two large faces. *)

From Stdlib Require Import QArith Lia List String.
From stdpp Require Import base list sets.
From S2P Require Import Prelude Geometry.
Import ListNotations.

Local Open Scope Q_scope.

(** ** Objects and the store *)

Inductive color_space := NoColorSpace | SRGBColorSpace.

(** A loaded texture: the fields [setTextureColorSpace] writes. *)
Record texture := Texture {
  tex_path : string;
  tex_colorSpace : color_space;
  tex_needsUpdate : bool }.

(** [new MeshStandardMaterial({...})]: the fields the code sets;
    [roughness] and [envMapIntensity] default to 1. *)
Record material := Material {
  mat_color : string;
  mat_map : option nat;
  mat_roughness : Q;
  mat_envMapIntensity : Q }.

Record store := Store {
  textures : list texture;
  materials : list material }.

(** Allocation of a new material: its index is the next free one. *)
Definition alloc_material (m : material) (st : store) : nat * store :=
  (length (materials st), Store (textures st) (materials st ++ [m])).

(** ** The code *)

(** Lines 25-31. *)
Definition setTextureColorSpace (texture : option nat) (colorSpace : color_space)
    (st : store) : store :=
  match texture with
  | None => st
  | Some t =>
      Store (alter (fun x => Texture (tex_path x) colorSpace true) t (textures st))
            (materials st)
  end.

Definition white : material := Material "#fff" None 1 1.

(** Lines 76-89: four white materials, created once. *)
Definition init_pageMaterials (st : store) : list nat * store :=
  let '(m0, st) := alloc_material white st in
  let '(m1, st) := alloc_material white st in
  let '(m2, st) := alloc_material white st in
  let '(m3, st) := alloc_material white st in
  ([m0; m1; m2; m3], st).

(** Lines 101-104. *)
Definition page_textures_setup (picture picture2 : option nat) (st : store) : store :=
  setTextureColorSpace picture2 SRGBColorSpace
    (setTextureColorSpace picture SRGBColorSpace st).

Definition textured (picture : option nat) : material :=
  Material "#fff" picture 1 (2 # 10).

(** Lines 126-140: [[...pageMaterials, front, back]]. *)
Definition page_materials (pageMaterials : list nat) (picture picture2 : option nat)
    (st : store) : list nat * store :=
  let '(front, st) := alloc_material (textured picture) st in
  let '(back, st) := alloc_material (textured picture2) st in
  (pageMaterials ++ [front; back], st).

(** The material a face of the mesh is drawn with: the group of a plane
    of the box selects [materials[materialIndex]]. *)
Definition face_material (mats : list nat) (st : store) (pl : plane) : option material :=
  mats !! pl_materialIndex pl ≫= fun m => materials st !! m.

(** The pages of a book, built one after the other from the same base
    list, each with its two textures. *)
Fixpoint build_pages (pageMaterials : list nat) (pics : list (option nat * option nat))
    (st : store) : list (list nat) * store :=
  match pics with
  | [] => ([], st)
  | (picture, picture2) :: rest =>
      let '(mats, st) := page_materials pageMaterials picture picture2 st in
      let '(others, st) := build_pages pageMaterials rest st in
      (mats :: others, st)
  end.

(** ** The store grows by appending *)

Lemma page_materials_spec (base : list nat) (p1 p2 : option nat) (st : store) :
  page_materials base p1 p2 st =
  (base ++ [length (materials st); S (length (materials st))],
   Store (textures st) (materials st ++ [textured p1; textured p2])).
Proof.
  unfold page_materials, alloc_material. simpl. rewrite length_app, <- app_assoc.
  simpl. do 2 f_equal. f_equal. f_equal. lia.
Qed.

(** Page [k] of [build_pages] gets the two materials allocated [2 k]
    after the first free index. *)
Lemma build_pages_spec (base : list nat) (pics : list (option nat * option nat)) (st : store) :
  build_pages base pics st =
  (imap (fun k _ => base ++ [length (materials st) + 2 * k; length (materials st) + 2 * k + 1]%nat) pics,
   Store (textures st)
         (materials st ++ flat_map (fun '(a, b) => [textured a; textured b]) pics)).
Proof.
  revert st. induction pics as [|[a b] pics IH]; intros st; cbn [build_pages].
  - rewrite app_nil_r. destruct st; reflexivity.
  - rewrite page_materials_spec, IH. cbn [materials textures imap flat_map].
    rewrite length_app, <- app_assoc. cbn [length app]. f_equal.
    + f_equal.
      * do 3 f_equal; lia.
      * apply imap_ext. intros k x _. unfold compose. cbv beta.
        apply (f_equal (app base)). f_equal; [lia | f_equal; lia].
Qed.

Lemma init_pageMaterials_spec (st : store) :
  init_pageMaterials st =
  (map (fun i => length (materials st) + i)%nat [0; 1; 2; 3]%nat,
   Store (textures st) (materials st ++ [white; white; white; white])).
Proof.
  unfold init_pageMaterials, alloc_material. cbn [materials textures].
  rewrite !length_app, <- !app_assoc. cbn [length app map].
  rewrite Nat.add_0_r, <- !Nat.add_assoc. reflexivity.
Qed.

Lemma lookup_app_add {A} (l1 l2 : list A) (i : nat) :
  (l1 ++ l2) !! (length l1 + i)%nat = l2 !! i.
Proof. rewrite lookup_app_r by lia. f_equal. lia. Qed.

(** ** Sharing *)

(** C9: Pages share material objects only through the base list: if two
    pages' lists hold the same material, it is at the same position,
    and that position is in the shared prefix unless the two pages are
    the same; every page's list starts with the base list. *)
Theorem build_pages_share (base : list nat) (pics : list (option nat * option nat))
    (st : store) :
  NoDup base -> Forall (fun m => (m < length (materials st))%nat) base ->
  let lists := fst (build_pages base pics st) in
  forall k l mk ml i j m,
    lists !! k = Some mk -> lists !! l = Some ml ->
    mk !! i = Some m -> ml !! j = Some m ->
    take (length base) mk = base /\ i = j /\ (k = l \/ (i < length base)%nat).
Proof.
  intros Hnd Hlt lists k l mk ml i j m Hk Hl Hi Hj.
  unfold lists in *. rewrite build_pages_spec in Hk, Hl. cbn [fst] in Hk, Hl.
  rewrite list_lookup_imap in Hk, Hl.
  destruct (pics !! k); [|discriminate]. destruct (pics !! l); [|discriminate].
  injection Hk as <-. injection Hl as <-.
  split; [rewrite take_app_length; reflexivity|].
  rewrite Forall_forall in Hlt.
  rewrite lookup_app in Hi, Hj.
  destruct (base !! i) as [bi|] eqn:Ebi, (base !! j) as [bj|] eqn:Ebj.
  - injection Hi as ->. injection Hj as ->.
    split; [eapply NoDup_lookup; eauto | right; apply lookup_lt_Some in Ebi; exact Ebi].
  - injection Hi as ->. apply lookup_ge_None in Ebj.
    assert (m < length (materials st))%nat by (apply Hlt, list_elem_of_lookup_2 with i; exact Ebi).
    destruct (j - length base)%nat as [|[|]]; simpl in Hj; try discriminate; injection Hj; lia.
  - injection Hj as ->. apply lookup_ge_None in Ebi.
    assert (m < length (materials st))%nat by (apply Hlt, list_elem_of_lookup_2 with j; exact Ebj).
    destruct (i - length base)%nat as [|[|]]; simpl in Hi; try discriminate; injection Hi; lia.
  - apply lookup_ge_None in Ebi, Ebj.
    destruct (i - length base)%nat as [|[|]] eqn:Ei; simpl in Hi; try discriminate;
    destruct (j - length base)%nat as [|[|]] eqn:Ej; simpl in Hj; try discriminate;
    injection Hi as <-; injection Hj; intros; split; try lia; left; lia.
Qed.

(** ** The faces of a page *)

(** C10: With the base list of lines 76-89 and the list of lines 126-140, the
    four side faces of the box are drawn with a white base material and
    the two large faces (normal along z) with the page's own textured
    materials: the front face ([pz], material 4) with [picture], the
    back face ([nz], material 5) with [picture2]. *)
Theorem page_face_materials (st0 : store) (picture picture2 : option nat)
    (width height depth : Q) (ws hs ds : nat) :
  let '(base, st1) := init_pageMaterials st0 in
  let '(mats, st2) := page_materials base picture picture2 st1 in
  forall pl, In pl (box_planes width height depth ws hs ds) ->
    face_material mats st2 pl =
    Some (match pl_w pl with
          | AxisZ => textured (if (pl_materialIndex pl =? 4)%nat then picture else picture2)
          | _ => white
          end).
Proof.
  rewrite init_pageMaterials_spec. cbn [map].
  rewrite page_materials_spec. cbn [materials textures].
  rewrite length_app, <- app_assoc. cbn [length app].
  intros pl Hpl. simpl in Hpl.
  repeat destruct Hpl as [<- | Hpl]; try contradiction;
    unfold face_material; simpl; rewrite ?lookup_app_add; try reflexivity.
  all: first
    [ rewrite <- (Nat.add_0_r (length (materials st0))) at 1; rewrite lookup_app_add; reflexivity
    | replace (S (length (materials st0) + 4)) with (length (materials st0) + 5)%nat by lia;
      rewrite lookup_app_add; reflexivity ].
Qed.

(** ** [setTextureColorSpace] *)

Lemma build_pages_share_witness :
  let lists := fst (build_pages [0; 1; 2; 3]%nat [(Some 0%nat, Some 1%nat); (Some 1%nat, None)]
                                (Store [] [white; white; white; white])) in
  lists !! 0%nat = Some [0; 1; 2; 3; 4; 5]%nat /\
  (take 4 [0; 1; 2; 3; 4; 5]%nat = [0; 1; 2; 3]%nat /\ 2%nat = 2%nat /\
   (0%nat = 1%nat \/ (2 < 4)%nat)).
Proof.
  split; [reflexivity|].
  apply (build_pages_share [0; 1; 2; 3]%nat [(Some 0%nat, Some 1%nat); (Some 1%nat, None)]
           (Store [] [white; white; white; white]) ltac:(repeat constructor; set_solver)
           ltac:(repeat constructor; simpl; lia) 0 1 _ [0; 1; 2; 3; 6; 7]%nat 2 2 2);
    reflexivity.
Defined.

Lemma page_face_materials_witness :
  face_material [0; 1; 2; 3; 4; 5]%nat
    (Store [] [white; white; white; white; textured (Some 0%nat); textured (Some 1%nat)])
    (Plane AxisX AxisY AxisZ 1 (-1) PAGE_WIDTH PAGE_HEIGHT PAGE_DEPTH 30 2 4) =
  Some (textured (Some 0%nat)).
Proof.
  pose proof (page_face_materials (Store [] []) (Some 0%nat) (Some 1%nat)
                PAGE_WIDTH PAGE_HEIGHT PAGE_DEPTH 30 2 1) as H.
  simpl in H. apply H. simpl. right; right; right; right; left. reflexivity.
Defined.
