(* ===== verification/Skeleton.v ===== *)
(** * The bone chain of a page

    Models the [useMemo] of [Page] in [src/src/components/Book.jsx]
    (lines 109-148) that builds the skeleton of a page: the loop of lines
    110-123 creates [PAGE_SEGMENTS + 1] bones, places bone [i > 0] at
    [SEGMENT_WIDTH] from its parent and adds it as the child of bone
    [i - 1]; lines 141-146 attach bone 0 to the skinned mesh and bind the
    skeleton.  Bones are kept in an arena (a list indexed by the position
    of the bone in [bones]) and a parent link is an index, so the
    aliasing of [bone] and [bones[i]] in the loop is the identity of the
    index.  Three.js's [Object3D.add] is modelled from its contract:
    detach the child from a previous bone parent, set its parent, push it
    on the parent's children.

    The theorems show the chain invariant of the built arena, that the
    rest-pose world position of bone [i] (computed by following parent
    links with fuel) is [i * SEGMENT_WIDTH] as soon as the fuel exceeds
    [i], and that [i + 1] links are also necessary: the chain has no
    cycle. *)

From Stdlib Require Import QArith Qround Lia Lqa ZArith List.
From stdpp Require Import base list.
From S2P Require Import Prelude Geometry.
Import ListNotations.

Local Open Scope Q_scope.

(** ** Bones *)

(** The [parent] field of a three.js object. *)
Inductive parent :=
| NoParent
| ParentMesh
| ParentBone (i : nat).

#[export] Instance parent_eq_dec : EqDecision parent.
Proof. solve_decision. Defined.

Record bone := Bone {
  bone_x : Q;               (** [bone.position.x] *)
  bone_parent : parent;     (** [bone.parent] *)
  bone_children : list nat  (** [bone.children] *)
}.

(** [new Bone()] *)
Definition new_bone : bone := Bone 0 NoParent [].

Definition set_position_x (x : Q) (b : bone) : bone :=
  Bone x (bone_parent b) (bone_children b).

Definition set_parent (p : parent) (b : bone) : bone :=
  Bone (bone_x b) p (bone_children b).

Definition push_child (c : nat) (b : bone) : bone :=
  Bone (bone_x b) (bone_parent b) (bone_children b ++ [c]).

Definition remove_child (c : nat) (b : bone) : bone :=
  Bone (bone_x b) (bone_parent b) (List.remove Nat.eq_dec c (bone_children b)).

(** [bones[p].add(bones[c])]: three.js [Object3D.add]. *)
Definition object_add (p c : nat) (bones : list bone) : list bone :=
  let detached :=
    match bone_parent <$> bones !! c with
    | Some (ParentBone q) => alter (remove_child c) q bones
    | _ => bones
    end in
  alter (set_parent (ParentBone p)) c (alter (push_child c) p detached).

(** ** The construction loop *)

Section Chain.
Variables (segment_width : Q) (segments : nat).

  (** One iteration of lines 111-123, for the bone of index [i]. *)
Definition bones_step (i : nat) (bones : list bone) : list bone :=
    let bones := bones ++ [new_bone] in
    let bones := alter (set_position_x (if i =? 0 then 0 else segment_width)) i bones in
    if 0 <? i then object_add (i - 1) i bones else bones.

  (** [for (let i = start; i < start + n; i++)] *)
Fixpoint bones_loop (n start : nat) (bones : list bone) : list bone :=
    match n with
    | O => bones
    | S n' => bones_loop n' (S start) (bones_step start bones)
    end.

  (** Lines 110-123: [for (let i = 0; i <= PAGE_SEGMENTS; i++)]. *)
Definition build_bones : list bone := bones_loop (S segments) 0 [].
End Chain.

(** ** The skinned mesh *)

Record skinned_mesh := SkinnedMesh {
  sm_geometry : geometry;
  sm_bones : list bone;          (** [mesh.skeleton.bones] *)
  sm_children : list nat;        (** bones among [mesh.children] *)
  sm_bone_inverses : list Q      (** x translation of [boneInverses[i]] *)
}.

(** World x of bone [i] in the rest pose: the sum of the offsets along
    the parent links, with [fuel] links at most. *)
Fixpoint world_x (fuel : nat) (bones : list bone) (i : nat) : option Q :=
  match fuel with
  | O => None
  | S fuel' =>
      match bones !! i with
      | None => None
      | Some b =>
          match bone_parent b with
          | ParentBone j => Qplus (bone_x b) <$> world_x fuel' bones j
          | _ => Some (bone_x b)
          end
      end
  end.

(** [mesh.bind(skeleton)] updates the world matrices and stores their
    inverses: in the rest pose a bone's world matrix is the translation
    by its world x. *)
Definition bind_inverses (bones : list bone) : list Q :=
  map (fun i => match world_x (S i) bones i with Some x => - x | None => 0 end)
      (seq 0 (length bones)).

(** Lines 109-148 without the materials: build the chain, attach bone 0
    to the mesh ([mesh.add(skeleton.bones[0])]) and bind. *)
Definition make_page_mesh (g : geometry) (segment_width : Q) (segments : nat) : skinned_mesh :=
  let bones := build_bones segment_width segments in
  let bones := alter (set_parent ParentMesh) 0%nat bones in
  SkinnedMesh g bones [0%nat] (bind_inverses bones).

(** ** The chain invariant *)

(** Bone [j] of a chain of which [n] bones have been created. *)
Definition chain_bone (sw : Q) (n j : nat) : bone :=
  Bone (if j =? 0 then 0 else sw)
       (if j =? 0 then NoParent else ParentBone (j - 1))
       (if S j <? n then [S j] else []).

Definition chain (sw : Q) (n : nat) : list bone := chain_bone sw n <$> seq 0 n.

Lemma chain_lookup (sw : Q) (n j : nat) :
  chain sw n !! j = if j <? n then Some (chain_bone sw n j) else None.
Proof.
  unfold chain. rewrite list_lookup_fmap. destruct (j <? n)%nat eqn:E.
  - apply Nat.ltb_lt in E. destruct (seq 0 n !! j) eqn:Es.
    + apply lookup_seq in Es as [-> _]. reflexivity.
    + apply lookup_ge_None in Es. rewrite length_seq in Es. lia.
  - apply Nat.ltb_ge in E. now rewrite lookup_seq_ge.
Qed.

Lemma length_chain (sw : Q) (n : nat) : length (chain sw n) = n.
Proof. unfold chain. now rewrite length_fmap, length_seq. Qed.

(** What one iteration does to the arena, bone by bone: it appends bone
    [i], positions it, links it to bone [i - 1] and records it among
    the children of bone [i - 1]. *)
Lemma bones_step_lookup (sw : Q) (i j : nat) (l : list bone) :
  length l = i ->
  bones_step sw i l !! j =
  if decide (j = i) then
    Some (Bone (if i =? 0 then 0 else sw)
               (if 0 <? i then ParentBone (i - 1) else NoParent) [])
  else if decide (S j = i) then push_child i <$> l !! j
  else l !! j.
Proof.
  intros Hl. unfold bones_step.
  assert (Hn : forall k, (l ++ [new_bone]) !! k =
                         if decide (k = i) then Some new_bone else l !! k).
  { intros k. case_decide as Hk.
    - subst k. rewrite lookup_app_r by lia.
      now replace (i - length l)%nat with 0%nat by lia.
    - rewrite lookup_app. destruct (l !! k) eqn:E; [reflexivity|].
      apply lookup_ge_None in E. apply lookup_ge_None_2. simpl. lia. }
  destruct (0 <? i)%nat eqn:Hi.
  - apply Nat.ltb_lt in Hi. unfold object_add.
    rewrite (list_lookup_alter _ (l ++ [new_bone]) i i), Hn, !decide_True by reflexivity.
    cbn [fmap option_fmap option_map bone_parent set_position_x new_bone].
    rewrite !list_lookup_alter, !Hn.
    repeat case_decide; subst; try lia; reflexivity.
  - apply Nat.ltb_ge in Hi. assert (i = 0%nat) by lia. subst i.
    destruct l; [|discriminate]. destruct j as [|j]; reflexivity.
Qed.

Lemma bones_step_chain (sw : Q) (i : nat) :
  bones_step sw i (chain sw i) = chain sw (S i).
Proof.
  apply list_eq. intros j. rewrite bones_step_lookup by apply length_chain.
  rewrite !chain_lookup. unfold chain_bone.
  repeat case_decide; subst;
    repeat match goal with
    | |- context [(?a <? ?b)%nat] => destruct (Nat.ltb_spec a b)
    | |- context [(?a =? ?b)%nat] => destruct (Nat.eqb_spec a b)
    end; simpl; try lia; try reflexivity.
Qed.

Lemma bones_loop_chain (sw : Q) (n i : nat) :
  bones_loop sw n i (chain sw i) = chain sw (i + n).
Proof.
  revert i. induction n as [|n IH]; intros i; simpl.
  - now rewrite Nat.add_0_r.
  - rewrite bones_step_chain, IH. f_equal. lia.
Qed.

(** The construction loop builds the chain of [segments + 1] bones:
    bone 0 at the origin with no parent, bone [j > 0] at [segment_width]
    from its parent [j - 1], and bone [j] the only child of bone
    [j - 1]. *)
Theorem build_bones_chain (sw : Q) (segments : nat) :
  build_bones sw segments = chain sw (S segments).
Proof. unfold build_bones. change [] with (chain sw 0). apply bones_loop_chain. Qed.

(** ** The mesh and the rest pose *)

Definition mesh_bones (sw : Q) (segments : nat) : list bone :=
  alter (set_parent ParentMesh) 0%nat (build_bones sw segments).

Lemma make_page_mesh_bones (g : geometry) (sw : Q) (segments : nat) :
  sm_bones (make_page_mesh g sw segments) = mesh_bones sw segments.
Proof. reflexivity. Qed.

Lemma mesh_bones_lookup (sw : Q) (segments j : nat) :
  mesh_bones sw segments !! j =
  if (j <? S segments)%nat then
    Some (Bone (if j =? 0 then 0 else sw)
               (if j =? 0 then ParentMesh else ParentBone (j - 1))
               (if j <? segments then [S j] else []))
  else None.
Proof.
  unfold mesh_bones. rewrite build_bones_chain, list_lookup_alter, !chain_lookup.
  unfold chain_bone. case_decide; subst;
    repeat match goal with
    | |- context [(?a <? ?b)%nat] => destruct (Nat.ltb_spec a b)
    | |- context [(?a =? ?b)%nat] => destruct (Nat.eqb_spec a b)
    end; simpl; try lia; try reflexivity.
Qed.

(** Rest pose: with more than [i] links of fuel, the world x of bone
    [i <= segments] is [i * segment_width]. *)
Lemma world_x_mesh_bones (sw : Q) (segments i fuel : nat) :
  (i <= segments)%nat -> (i < fuel)%nat ->
  exists x, world_x fuel (mesh_bones sw segments) i = Some x /\ x == qnat i * sw.
Proof.
  revert fuel. induction i as [|i IH]; intros fuel Hi Hf;
    destruct fuel as [|fuel]; try lia; simpl; rewrite mesh_bones_lookup.
  - simpl. exists 0. split; [reflexivity|]. change (qnat 0) with 0. lra.
  - destruct (Nat.ltb_spec (S i) (S segments)); [|lia]. simpl.
    destruct (IH fuel) as [y [Ey Hy]]; [lia|lia|].
    rewrite Nat.sub_0_r, Ey. exists (sw + y). split; [reflexivity|].
    rewrite qnat_succ. lra.
Qed.

(** The chain has no cycle: following at most [i] links from bone [i]
    does not reach the mesh. *)
Lemma world_x_mesh_bones_fuel (sw : Q) (segments i fuel : nat) :
  (fuel <= i)%nat -> world_x fuel (mesh_bones sw segments) i = None.
Proof.
  revert i. induction fuel as [|fuel IH]; intros i Hi; [reflexivity|].
  simpl. rewrite mesh_bones_lookup.
  destruct (Nat.ltb_spec i (S segments)); [|reflexivity]. simpl.
  destruct (Nat.eqb_spec i 0); [lia|]. rewrite IH by lia. reflexivity.
Qed.

Lemma length_mesh_bones (sw : Q) (segments : nat) :
  length (mesh_bones sw segments) = S segments.
Proof. unfold mesh_bones. now rewrite length_alter, build_bones_chain, length_chain. Qed.

(** C6: The skinned mesh of a page holds the chain of [segments + 1] bones:
    bone 0 at the origin, attached to the mesh, and every bone [j > 0]
    at [segment_width] from its parent [j - 1], the only child of that
    parent; bone 0 is the only bone among the mesh's children. *)
Theorem make_page_mesh_chain (g : geometry) (sw : Q) (segments : nat) :
  let m := make_page_mesh g sw segments in
  sm_geometry m = g /\ sm_children m = [0%nat] /\
  length (sm_bones m) = S segments /\
  forall j, sm_bones m !! j =
    if (j <? S segments)%nat then
      Some (Bone (if j =? 0 then 0 else sw)
                 (if j =? 0 then ParentMesh else ParentBone (j - 1))
                 (if j <? segments then [S j] else []))
    else None.
Proof.
  cbv zeta. rewrite make_page_mesh_bones. split; [reflexivity|]. split; [reflexivity|].
  split; [apply length_mesh_bones | apply mesh_bones_lookup].
Qed.

(** C11: Following the parent links from bone [i] reaches the mesh after
    exactly [i + 1] links: with less fuel the walk does not finish, with
    more it returns the rest position [i * segment_width]. *)
Theorem rest_pose_world_x (sw : Q) (segments i : nat) :
  (i <= segments)%nat ->
  (forall fuel, (fuel <= i)%nat -> world_x fuel (mesh_bones sw segments) i = None) /\
  (forall fuel, (i < fuel)%nat ->
     exists x, world_x fuel (mesh_bones sw segments) i = Some x /\ x == qnat i * sw).
Proof.
  intros Hi. split.
  - intros fuel Hf. apply world_x_mesh_bones_fuel, Hf.
  - intros fuel Hf. apply world_x_mesh_bones; assumption.
Qed.

(** ** Witnesses on the page of [Book.jsx] *)

Lemma rest_pose_world_x_witness :
  (forall fuel, (fuel <= 30)%nat -> world_x fuel (mesh_bones SEGMENT_WIDTH PAGE_SEGMENTS) 30 = None) /\
  (forall fuel, (30 < fuel)%nat ->
     exists x, world_x fuel (mesh_bones SEGMENT_WIDTH PAGE_SEGMENTS) 30 = Some x /\
               x == qnat 30 * SEGMENT_WIDTH).
Proof. apply (rest_pose_world_x SEGMENT_WIDTH PAGE_SEGMENTS 30). unfold PAGE_SEGMENTS. lia. Defined.

