(* ===== verification/Pose.v ===== *)
(** * The posed skeleton

    [Skeleton.v] walks the parent links of the bone arena in the rest
    pose.  Here the bones carry the rotations the animator sets
    ([bone.rotation.y], the list [rot] of [Animator.v]): three.js
    computes the world matrix of a bone as the world matrix of its parent
    times its local matrix (translation [bone.position], then rotation
    about y), so the world position of a child is that of its parent plus
    its offset [(x, 0, 0)] turned by the accumulated angle of the parent,
    [(x cos a, 0, - x sin a)].  [world_pose] follows the parent links with
    fuel, as [world_x] does, in the plane [y = 0] the rotations act on;
    the transform of the mesh and of the page group above bone 0 is a
    rigid motion common to all bones and is left out.

    A lemma gives the positions of the bones of the page as a chain of
    frames ([chain_pose]), which all rotations 0 lay flat; the theorem
    shows that whatever the rotations, consecutive bones of the page stay
    [SEGMENT_WIDTH] apart: the page bends, it does not stretch. *)

From Stdlib Require Import Reals Lra Lia List QArith Qreals.
From stdpp Require Import base list.
From S2P Require Import Prelude Geometry Skeleton.
Import ListNotations.

Local Open Scope R_scope.

(** The world position of a bone in the plane of the rotations and its
    accumulated angle. *)
Record frame2 := Frame2 { px : R; pz : R; angle : R }.

(** [matrixWorld = parent.matrixWorld * matrix] *)
Definition child_frame (f : frame2) (x theta : R) : frame2 :=
  Frame2 (px f + x * cos (angle f)) (pz f - x * sin (angle f)) (angle f + theta).

Fixpoint world_pose (fuel : nat) (bones : list bone) (rot : list R) (i : nat) : option frame2 :=
  match fuel with
  | O => None
  | S fuel' =>
      match bones !! i with
      | None => None
      | Some b =>
          let theta := default 0 (rot !! i) in
          match bone_parent b with
          | ParentBone j => (fun f => child_frame f (Q2R (bone_x b)) theta) <$> world_pose fuel' bones rot j
          | _ => Some (Frame2 (Q2R (bone_x b)) 0 theta)
          end
      end
  end.

(** The frames of the page chain: bone 0 at the origin, bone [i + 1] one
    segment from bone [i] along the accumulated angle. *)
Fixpoint chain_pose (sw : R) (rot : list R) (i : nat) : frame2 :=
  match i with
  | O => Frame2 0 0 (default 0 (rot !! 0%nat))
  | S i' => child_frame (chain_pose sw rot i') sw (default 0 (rot !! i))
  end.

(** ** The pose of the page chain *)

Lemma world_pose_mesh_bones (sw : Q) (segments : nat) (rot : list R) (i fuel : nat) :
  (i <= segments)%nat -> (i < fuel)%nat ->
  world_pose fuel (mesh_bones sw segments) rot i = Some (chain_pose (Q2R sw) rot i).
Proof.
  revert fuel. induction i as [|i IH]; intros fuel Hi Hf;
    destruct fuel as [|fuel]; try lia; simpl; rewrite mesh_bones_lookup.
  - simpl. now rewrite RMicromega.Q2R_0.
  - destruct (Nat.ltb_spec (S i) (S segments)); [|lia]. simpl.
    rewrite Nat.sub_0_r, IH by lia. reflexivity.
Qed.

Lemma rot_zero_default (rot : list R) (j : nat) :
  Forall (fun r => r = 0) rot -> default 0 (rot !! j) = 0.
Proof.
  intros Hrot. destruct (rot !! j) eqn:E; [|reflexivity]. simpl.
  exact (proj1 (Forall_lookup _ rot) Hrot j r E).
Qed.

(** In the rest pose bone [i] of the chain is at [i * sw], unrotated. *)
Lemma chain_pose_rest (sw : R) (rot : list R) (i : nat) :
  Forall (fun r => r = 0) rot -> chain_pose sw rot i = Frame2 (INR i * sw) 0 0.
Proof.
  intros Hrot. induction i as [|i IH]; simpl chain_pose; rewrite rot_zero_default by exact Hrot.
  - f_equal. simpl. ring.
  - rewrite IH. unfold child_frame. cbn [px pz angle]. rewrite cos_0, sin_0, S_INR.
    f_equal; ring.
Qed.

(** C19: The page bends but does not stretch: whatever rotations the
    bones carry, bone [i] and bone [i + 1] of the chain of
    [Skeleton.make_page_mesh] are both reached and lie exactly one
    segment width apart. *)
Theorem pose_segments_rigid (sw : Q) (segments : nat) (rot : list R) (i fuel : nat) :
  (i < segments)%nat -> (S i < fuel)%nat ->
  exists f g, world_pose fuel (mesh_bones sw segments) rot i = Some f /\
              world_pose fuel (mesh_bones sw segments) rot (S i) = Some g /\
              (px g - px f) ^ 2 + (pz g - pz f) ^ 2 = Q2R sw ^ 2.
Proof.
  intros Hi Hf. exists (chain_pose (Q2R sw) rot i), (chain_pose (Q2R sw) rot (S i)).
  rewrite !world_pose_mesh_bones by lia. split; [reflexivity|]. split; [reflexivity|].
  simpl chain_pose. unfold child_frame. cbn [px pz].
  set (a := angle (chain_pose (Q2R sw) rot i)). pose proof (sin2_cos2 a) as H. unfold Rsqr in H.
  replace (Q2R sw ^ 2) with (Q2R sw ^ 2 * (sin a * sin a + cos a * cos a)) by (rewrite H; ring).
  ring.
Qed.

(** ** Witnesses *)

Lemma pose_segments_rigid_witness :
  exists f g, world_pose 31 (mesh_bones SEGMENT_WIDTH PAGE_SEGMENTS) [0; 0.1; 0.2] 1 = Some f /\
              world_pose 31 (mesh_bones SEGMENT_WIDTH PAGE_SEGMENTS) [0; 0.1; 0.2] 2 = Some g /\
              (px g - px f) ^ 2 + (pz g - pz f) ^ 2 = Q2R SEGMENT_WIDTH ^ 2.
Proof.
  apply (pose_segments_rigid SEGMENT_WIDTH PAGE_SEGMENTS [0; 0.1; 0.2] 1 31);
    unfold PAGE_SEGMENTS; lia.
Defined.

