(* ===== verification/Damping.v ===== *)
(** * maath's easing: [damp], [dampAngle] and the wrap of angles

    The frame callback of [Page] (lines 176-182 of
    [src/src/components/Book.jsx]) calls
    [easing.dampAngle(target.rotation, "y", rotationAngle, easingFactor,
    delta)] of the maath library (v0.10, [src/easing.ts]), which is not
    part of this repository and is modelled here from its source.

    [dampAngle] damps toward [current.y + deltaAngle(current.y, target)],
    the distance to the target taken modulo [2 PI] into [(-PI, PI]] with
    maath's [repeat] and [clamp].  [damp] is Unity's [SmoothDamp], a
    critically damped spring: it keeps a velocity on the rotation object
    ([current.__damp.velocity_y], created at 0 on the first call), snaps
    to the target within [eps] (leaving the velocity as it is), takes a
    step of the spring with the easing [exp] (a rational approximation of
    [e^-x]) and, when the step would carry the value past the target,
    sets it to the target with velocity 0.  [maxSpeed] [None] is
    [Infinity], the default the program takes.

    The lemmas here hold for any arguments: within half a turn the wrap
    is the identity; one call never carries the value past the target;
    the easing contracts a step by more than [1 + omega * delta].  The
    analysis of the spring at the program's call is in [Maath.v]. *)

From Stdlib Require Import Reals Lra Lia.
From stdpp Require Import base option.
From S2P Require Import Prelude.

Local Open Scope R_scope.

(** ** Angles: the wrap of [dampAngle]

    maath's [dampAngle(current, prop, target, ...)] damps toward
    [current[prop] + deltaAngle(current[prop], target)], where
    [deltaAngle] takes [target - current] modulo [2 PI] into [(-PI, PI]]
    with [repeat] and [clamp]. *)

(** [clamp(value, min, max)] *)
Definition clamp (value lo hi : R) : R := Rmax lo (Rmin hi value).

(** [repeat(t, length)]: [t - Math.floor(t / length) * length],
    clamped to [[0, length]]. *)
Definition maath_repeat (t len : R) : R :=
  clamp (t - IZR (Int_part (t / len)) * len) 0 len.

(** [deltaAngle(current, target)] *)
Definition deltaAngle (current target : R) : R :=
  let delta := maath_repeat (target - current) (2 * PI) in
  if Rlt_dec PI delta then delta - 2 * PI else delta.

Lemma clamp_id (v lo hi : R) : lo <= v <= hi -> clamp v lo hi = v.
Proof. intros H. unfold clamp, Rmax, Rmin. repeat destruct Rle_dec; lra. Qed.

(** [deltaAngle] is [target - current] shifted by a whole number of turns
    into [(-PI, PI]]. *)
Lemma deltaAngle_spec (c t : R) :
  - PI < deltaAngle c t <= PI /\ exists k : Z, deltaAngle c t = t - c - IZR k * (2 * PI).
Proof.
  pose proof PI_RGT_0 as Hpi. unfold deltaAngle, maath_repeat.
  set (u := t - c). set (k := Int_part (u / (2 * PI))).
  destruct (base_Int_part (u / (2 * PI))) as [Hk1 Hk2]. fold k in Hk1, Hk2.
  assert (Hlo : IZR k * (2 * PI) <= u).
  { apply (Rmult_le_compat_r (2 * PI)) in Hk1; [|lra].
    unfold Rdiv in Hk1. rewrite Rmult_assoc, Rinv_l in Hk1 by lra. lra. }
  assert (Hhi : u < IZR k * (2 * PI) + 2 * PI).
  { assert (u / (2 * PI) < IZR k + 1) as H by lra.
    apply (Rmult_lt_compat_r (2 * PI)) in H; [|lra].
    unfold Rdiv in H. rewrite Rmult_assoc, Rinv_l in H by lra. lra. }
  rewrite clamp_id by lra.
  destruct (Rlt_dec PI _); split; try lra.
  - exists (k + 1)%Z. rewrite plus_IZR. ring.
  - exists k. reflexivity.
Qed.

(** Within half a turn of the target, the wrap does nothing. *)
Lemma deltaAngle_id (c t : R) : - PI < t - c <= PI -> deltaAngle c t = t - c.
Proof.
  intros Hu. pose proof PI_RGT_0.
  destruct (deltaAngle_spec c t) as [Hr [k Hk]]. rewrite Hk in *.
  assert (Hk0 : k = 0%Z).
  { assert (-1 < IZR k < 1) as [H1 H2] by nra.
    apply lt_IZR in H1, H2. lia. }
  subst k. simpl. ring.
Qed.

(** ** The spring *)

(** [exp(t)] of maath's easing. *)
Definition maath_exp (t : R) : R := 1 / (1 + t + 0.48 * t * t + 0.235 * t * t * t).

(** The default [eps] of [damp]. *)
Definition maath_eps : R := 0.001.

(** [bone.rotation] as [damp] sees it: [y] and [__damp.velocity_y],
    [undefined] as [None]. *)
Record rotation_obj := RotationObj { rot_y : R; velocity_y : option R }.

(** JavaScript's [a > b] on numbers. *)
Definition js_gt (a b : R) : bool := if Rlt_dec b a then true else false.

(** [damp(current, "y", target, smoothTime, delta, maxSpeed, easing,
    eps)]; [maxSpeed] [None] is [Infinity]. *)
Definition maath_damp (current : rotation_obj) (target smoothTime delta : R)
    (maxSpeed : option R) (easing : R -> R) (eps : R) : rotation_obj :=
  let vel := default 0 (velocity_y current) in
  if Rle_dec (Rabs (rot_y current - target)) eps then RotationObj target (Some vel)
  else
    let smoothTime := Rmax 0.0001 smoothTime in
    let omega := 2 / smoothTime in
    let t := easing (omega * delta) in
    let originalTo := target in
    let change :=
      match maxSpeed with
      | None => rot_y current - target
      | Some m => Rmin (Rmax (rot_y current - target) (- (m * smoothTime))) (m * smoothTime)
      end in
    let target := rot_y current - change in
    let temp := (vel + omega * change) * delta in
    let vel' := (vel - omega * temp) * t in
    let output := target + (change + temp) * t in
    if Bool.eqb (js_gt (originalTo - rot_y current) 0) (js_gt output originalTo)
    then RotationObj originalTo (Some ((originalTo - originalTo) / delta))
    else RotationObj output (Some vel').

(** [dampAngle(current, "y", target, ...)] *)
Definition maath_dampAngle (current : rotation_obj) (target smoothTime delta : R)
    (maxSpeed : option R) (easing : R -> R) (eps : R) : rotation_obj :=
  maath_damp current (rot_y current + deltaAngle (rot_y current) target)
    smoothTime delta maxSpeed easing eps.

(** ** Facts about one call *)

Lemma div_lt_one (n d : R) : 0 < n < d -> 1 / d * n < 1.
Proof.
  intros Hn. unfold Rdiv. rewrite Rmult_1_l.
  apply (Rmult_lt_reg_l d); [lra|]. rewrite <- Rmult_assoc, Rinv_r by lra. lra.
Qed.

(** The easing of one frame contracts by more than [1 + omega * delta]. *)
Lemma maath_exp_rate (a : R) : 0 < a -> 0 < maath_exp a /\ maath_exp a * (1 + a) < 1.
Proof.
  intros Ha. unfold maath_exp.
  split; [apply Rdiv_lt_0_compat; nra | apply div_lt_one; nra].
Qed.

(** The guard of [damp] leaves a step that stays on its side of the
    target. *)
Lemma guard_same_side (c T out : R) :
  (c < T /\ out < T) \/ (T < c /\ T < out) ->
  Bool.eqb (js_gt (T - c) 0) (js_gt out T) = false.
Proof.
  unfold js_gt. intros H.
  destruct (Rlt_dec 0 (T - c)), (Rlt_dec T out); simpl; try reflexivity; lra.
Qed.

(** Bernoulli's inequality. *)
Lemma bernoulli (a : R) (n : nat) : 0 <= a -> 1 + INR n * a <= (1 + a) ^ n.
Proof.
  intros Ha. induction n as [|n IH]; simpl pow; [simpl; lra|].
  rewrite S_INR. pose proof (pos_INR n). nra.
Qed.


(** No overshoot: whatever the velocity, the easing and [maxSpeed], one
    call of [damp] leaves the value on the side of the target it was
    on, or at the target. *)
Lemma maath_damp_no_overshoot (o : rotation_obj) (T s d : R) (m : option R)
    (easing : R -> R) (eps : R) :
  0 <= eps ->
  let o' := maath_damp o T s d m easing eps in
  (rot_y o <= T -> rot_y o' <= T) /\ (T <= rot_y o -> T <= rot_y o').
Proof.
  intros He. unfold maath_damp. destruct (Rle_dec _ _) as [|Hn]; [simpl; lra|].
  assert (rot_y o <> T) by (intros E; apply Hn; rewrite E, Rminus_diag, Rabs_R0; exact He).
  cbv zeta. unfold js_gt.
  destruct (Rlt_dec 0 (T - rot_y o)), (Rlt_dec T _); simpl; split; intros; lra.
Qed.

