(* ===== verification/Animator.v ===== *)
(** * The per-frame animator of a page

    Models the [useFrame] callback of [Page] in
    [src/src/components/Book.jsx] (lines 152-184) and the constants it
    reads (lines 22-23).  The state a frame changes is the rotation
    object of the page's group ([group.current.rotation]) and those of
    the bones of the skinned mesh, each with the velocity maath keeps on
    it ([Damping.rotation_obj]); the mesh reference is [None] until React
    has mounted it.  The damping call of lines 176-182 is maath's
    [dampAngle] with the defaults the call leaves ([dampAngle_call]).

    The loop of lines 163-183 runs [for (let i = 1; i < bones.length;
    i++)] and picks [group.current] as the target when [i === 0]: that
    branch, and the [i === 0] branch of the closed-book case, are never
    taken, so the page group and bone 0 are never rotated.  The theorems
    give the effect of one frame on every bone, the invariance of the
    group and of bone 0 over any sequence of frames, and the shape of the
    curl; the behaviour of the spring over many frames is in [Maath.v]. *)

From Stdlib Require Import Reals Lra Lia List.
From stdpp Require Import base list.
From S2P Require Import Prelude Damping.
Import ListNotations.

Local Open Scope R_scope.

(** ** Constants and props *)

Definition easingFactor : R := 0.5.
Definition insideCurveStrength : R := 0.15.

(** The props of [Page] the frame reads. *)
Record page_props := PageProps {
  number : nat;
  opened : bool;
  bookClosed : bool
}.

(** The objects one frame mutates: [group.current.rotation] and the
    rotations of [skinnedMeshRef.current.skeleton.bones]. *)
Record page_state := PageState {
  group_rotation : rotation_obj;
  skinned_mesh_bones : option (list rotation_obj)
}.

(** [MathUtils.degToRad] *)
Definition degToRad (degrees : R) : R := degrees * (PI / 180).

(** Lines 157-160. *)
Definition target_rotation (p : page_props) : R :=
  let targetRotation := if opened p then - PI / 2 else PI / 2 in
  if negb (bookClosed p) then targetRotation + degToRad (INR (number p) * 0.8)
  else targetRotation.

(** Line 166. *)
Definition inside_curve_intensity (i : nat) : R :=
  if (i <? 8)%nat then sin (INR i * 0.2 + 0.25) else 0.

(** Lines 167-175. *)
Definition rotation_angle (p : page_props) (targetRotation : R) (i : nat) : R :=
  let rotationAngle := insideCurveStrength * inside_curve_intensity i * targetRotation in
  if bookClosed p then (if (i =? 0)%nat then targetRotation else 0) else rotationAngle.

(** The object whose rotation a loop iteration damps (line 164). *)
Inductive frame_target :=
| TargetGroup
| TargetBone (i : nat).

Definition target_of (i : nat) : frame_target :=
  if (i =? 0)%nat then TargetGroup else TargetBone i.

(** Lines 176-182: [easing.dampAngle(target.rotation, "y", rotationAngle,
    easingFactor, delta)], [maxSpeed], [easing] and [eps] at maath's
    defaults. *)
Definition dampAngle_call (o : rotation_obj) (rotationAngle delta : R) : rotation_obj :=
  maath_dampAngle o rotationAngle easingFactor delta None maath_exp maath_eps.

(** Lines 164 and 176-182: the call on the rotation of the target. *)
Definition damp_target (tg : frame_target) (rotationAngle delta : R)
    (group : rotation_obj) (bones : list rotation_obj) : rotation_obj * list rotation_obj :=
  match tg with
  | TargetGroup => (dampAngle_call group rotationAngle delta, bones)
  | TargetBone i => (group, alter (fun o => dampAngle_call o rotationAngle delta) i bones)
  end.

(** Lines 163-183 from index [i], [n] iterations left. *)
Fixpoint frame_loop (p : page_props) (targetRotation delta : R) (n i : nat)
    (group : rotation_obj) (bones : list rotation_obj) : rotation_obj * list rotation_obj :=
  match n with
  | O => (group, bones)
  | S n' =>
      let '(group', bones') :=
        damp_target (target_of i) (rotation_angle p targetRotation i) delta group bones in
      frame_loop p targetRotation delta n' (S i) group' bones'
  end.

(** Lines 152-184: the whole callback. *)
Definition use_frame (p : page_props) (delta : R) (st : page_state) : page_state :=
  match skinned_mesh_bones st with
  | None => st
  | Some bones =>
      let targetRotation := target_rotation p in
      let '(group, bones') :=
        frame_loop p targetRotation delta (length bones - 1) 1 (group_rotation st) bones in
      PageState group (Some bones')
  end.

(** A sequence of frames, each with the props of its render and its
    elapsed time, applied in order. *)
Fixpoint run_frames (frames : list (page_props * R)) (st : page_state) : page_state :=
  match frames with
  | [] => st
  | (p, delta) :: rest => run_frames rest (use_frame p delta st)
  end.

(** The update a frame applies to bone [i]. *)
Definition bone_step (p : page_props) (delta : R) (i : nat) (o : rotation_obj) : rotation_obj :=
  dampAngle_call o (rotation_angle p (target_rotation p) i) delta.

(** ** One frame *)

Lemma target_of_pos (i : nat) : (1 <= i)%nat -> target_of i = TargetBone i.
Proof. intros H. unfold target_of. destruct (Nat.eqb_spec i 0); [lia | reflexivity]. Qed.

(** The loop from [i >= 1] never touches the group and damps exactly the
    bones [i .. i + n - 1]. *)
Lemma frame_loop_spec (p : page_props) (delta : R) (n i : nat) (g : rotation_obj)
    (bones : list rotation_obj) :
  (1 <= i)%nat ->
  fst (frame_loop p (target_rotation p) delta n i g bones) = g /\
  forall j, snd (frame_loop p (target_rotation p) delta n i g bones) !! j =
    if decide (i <= j < i + n)%nat then bone_step p delta j <$> bones !! j
    else bones !! j.
Proof.
  revert i bones. induction n as [|n IH]; intros i bones Hi; simpl.
  - split; [reflexivity|]. intros j. rewrite decide_False by lia. reflexivity.
  - rewrite target_of_pos by exact Hi. simpl.
    destruct (IH (S i) (alter (fun o => dampAngle_call o (rotation_angle p (target_rotation p) i) delta)
                          i bones)) as [IHg IHb]; [lia|].
    split; [exact IHg|]. intros j. rewrite IHb, list_lookup_alter.
    unfold bone_step. repeat case_decide; subst; try lia; reflexivity.
Qed.

Lemma length_frame_loop (p : page_props) (delta : R) (n i : nat) (g : rotation_obj)
    (bones : list rotation_obj) :
  length (snd (frame_loop p (target_rotation p) delta n i g bones)) = length bones.
Proof.
  revert i g bones. induction n as [|n IH]; intros i g bones; simpl; [reflexivity|].
  destruct (target_of i); simpl; rewrite IH; [reflexivity|]. apply length_alter.
Qed.

(** One frame on a mounted page: the group keeps its rotation object, the
    bone list keeps its length, bone 0 keeps its rotation object, and
    every bone [i >= 1] is damped once. *)
Lemma use_frame_effect (p : page_props) (delta : R) (st : page_state) (bones : list rotation_obj) :
  skinned_mesh_bones st = Some bones ->
  exists bones',
    use_frame p delta st = PageState (group_rotation st) (Some bones') /\
    length bones' = length bones /\
    bones' !! 0%nat = bones !! 0%nat /\
    forall i, (1 <= i)%nat -> bones' !! i = bone_step p delta i <$> bones !! i.
Proof.
  intros Hb. unfold use_frame. rewrite Hb.
  pose proof (frame_loop_spec p delta (length bones - 1) 1 (group_rotation st) bones
                (le_n 1)) as [Hg Hl].
  pose proof (length_frame_loop p delta (length bones - 1) 1 (group_rotation st) bones) as Hlen.
  destruct (frame_loop _ _ _ _ _ _ _) as [g bones']. simpl in Hg, Hl, Hlen. subst g.
  exists bones'. split; [reflexivity|]. split; [exact Hlen|]. split.
  - rewrite Hl. rewrite decide_False by lia. reflexivity.
  - intros i Hi. rewrite Hl. case_decide; [reflexivity|].
    rewrite lookup_ge_None_2 by lia. reflexivity.
Qed.

(** Before the mesh is mounted a frame changes nothing (line 153). *)
Lemma use_frame_none (p : page_props) (delta : R) (st : page_state) :
  skinned_mesh_bones st = None -> use_frame p delta st = st.
Proof. intros H. unfold use_frame. now rewrite H. Qed.

(** ** Frames as transformations of the pose *)

(** Iterating a map of a list that leaves index 0 alone iterates the
    update of each index on its own element. *)
Lemma imap_skip0_iter {A} (f : nat -> A -> A) (n : nat) (l : list A) :
  Nat.iter n (imap (fun i x => if (i =? 0)%nat then x else f i x)) l =
  imap (fun i x => if (i =? 0)%nat then x else Nat.iter n (f i) x) l.
Proof.
  induction n as [|n IH]; simpl.
  - apply list_eq. intros i. rewrite list_lookup_imap.
    destruct (l !! i); simpl; [|reflexivity]. now destruct (i =? 0)%nat.
  - rewrite IH. apply list_eq. intros i.
    rewrite !list_lookup_imap. destruct (l !! i); simpl; [|reflexivity].
    now destruct (i =? 0)%nat.
Qed.

Section Pose.
Variables (p : page_props) (delta : R).

(** The bone rotation objects after one frame. *)
Definition frame_pose (bones : list rotation_obj) : list rotation_obj :=
  imap (fun i o => if (i =? 0)%nat then o else bone_step p delta i o) bones.

(** The rotations the frames of [p] aim at: bone 0 is left alone. *)
Definition target_pose (rots : list R) : list R :=
  imap (fun i r => if (i =? 0)%nat then r else rotation_angle p (target_rotation p) i) rots.

Lemma use_frame_pose (st : page_state) (bones : list rotation_obj) :
  skinned_mesh_bones st = Some bones ->
  use_frame p delta st = PageState (group_rotation st) (Some (frame_pose bones)).
Proof.
  intros Hb. destruct (use_frame_effect p delta st bones Hb) as [b' [-> [_ [H0 Hi]]]].
  do 2 f_equal. apply list_eq. intros i. unfold frame_pose. rewrite list_lookup_imap.
  destruct (Nat.eqb_spec i 0) as [->|Hne]; [rewrite H0; now destruct (bones !! 0%nat)|].
  rewrite Hi by lia. reflexivity.
Qed.

Lemma run_frames_repeat (n : nat) (st : page_state) (bones : list rotation_obj) :
  skinned_mesh_bones st = Some bones ->
  run_frames (repeat (p, delta) n) st =
  PageState (group_rotation st)
    (Some (imap (fun i o => if (i =? 0)%nat then o else Nat.iter n (bone_step p delta i) o) bones)).
Proof.
  intros Hb. rewrite <- (imap_skip0_iter (bone_step p delta) n bones).
  revert st bones Hb. induction n as [|n IH]; intros st bones Hb; simpl.
  - destruct st; simpl in *; now subst.
  - rewrite (use_frame_pose st bones Hb), (IH _ (frame_pose bones)) by reflexivity.
    simpl. now rewrite <- Nat.iter_succ_r.
Qed.
End Pose.

(** C2: The page never turns: over any sequence of frames, with any props
    and elapsed times, the rotation object of the page group and that of
    bone 0 keep their initial values (angle and velocity), and the mesh
    keeps its number of bones.  The hinge of the page is never driven,
    whatever [opened] and [bookClosed] say. *)
Theorem run_frames_hinge_fixed (frames : list (page_props * R)) (st : page_state) :
  let st' := run_frames frames st in
  group_rotation st' = group_rotation st /\
  (skinned_mesh_bones st' ≫= (.!! 0%nat)) = (skinned_mesh_bones st ≫= (.!! 0%nat)) /\
  length <$> skinned_mesh_bones st' = length <$> skinned_mesh_bones st.
Proof.
  cbv zeta. revert st. induction frames as [|[p delta] frames IH]; intros st; simpl; [auto|].
  destruct (skinned_mesh_bones st) as [bones|] eqn:Hb.
  - rewrite (use_frame_pose p delta st bones Hb).
    destruct (IH (PageState (group_rotation st) (Some (frame_pose p delta bones))))
      as [Hg [H0 Hl]]; simpl in *.
    rewrite Hg, H0, Hl. unfold frame_pose. rewrite list_lookup_imap, length_imap.
    split; [reflexivity|]. split; [|reflexivity]. now destruct (bones !! 0%nat).
  - rewrite use_frame_none by exact Hb. specialize (IH st). rewrite Hb in IH. exact IH.
Qed.

(** ** The shape of the curl *)

Lemma PI_bounds : 3.1 < PI < 3.3.
Proof.
  pose proof (PI_2_3_7_ineq 0) as [_ Hu]. pose proof (PI_2_3_7_ineq 1) as [Hl _].
  unfold tg_alt, PI_2_3_7_tg, Ratan_seq in Hu, Hl. simpl in Hu, Hl. lra.
Qed.

Lemma curve_arg_bounds (i : nat) : (i < 8)%nat -> 0.25 <= INR i * 0.2 + 0.25 <= 1.65.
Proof.
  intros H. pose proof (pos_INR i).
  assert (INR i <= 7) by (replace 7 with (INR 7) by (simpl; lra); apply le_INR; lia).
  lra.
Qed.

(** C7: The curl intensity of line 166 grows strictly with the bone index
    on bones 0 to 7 and is positive there; from bone 8 on it is 0. *)
Theorem inside_curve_intensity_increasing (i j : nat) :
  (i < j < 8)%nat -> 0 < inside_curve_intensity i < inside_curve_intensity j.
Proof.
  intros [Hij Hj]. unfold inside_curve_intensity.
  destruct (Nat.ltb_spec i 8); [|lia]. destruct (Nat.ltb_spec j 8); [|lia].
  pose proof PI_bounds. pose proof (curve_arg_bounds i ltac:(lia)) as Bi.
  pose proof (curve_arg_bounds j Hj) as Bj.
  assert (Lij : INR i * 0.2 + 0.25 < INR j * 0.2 + 0.25) by (apply lt_INR in Hij; lra).
  split; [apply sin_gt_0; lra|].
  assert (Ai : INR i * 0.2 + 0.25 <= 1.45).
  { assert (INR i <= 6) by (replace 6 with (INR 6) by (simpl; lra); apply le_INR; lia). lra. }
  destruct (Nat.eq_dec j 7%nat) as [->|Hj7].
  - replace (INR 7 * 0.2 + 0.25) with (PI - (PI - 1.65)) by (simpl; lra).
    rewrite sin_PI_x. apply sin_increasing_1; lra.
  - assert (INR j <= 6) by (replace 6 with (INR 6) by (simpl; lra); apply le_INR; lia).
    apply sin_increasing_1; lra.
Qed.

(** ** The properties of the frame *)

(** C1: One frame on a mounted page (lines 152-184): the group keeps its
    rotation object, the bone list keeps its length, bone 0 keeps its
    rotation object, and every bone [i >= 1] is damped once, by maath's
    [dampAngle] toward [rotation_angle p (target_rotation p) i] with
    smoothing time [easingFactor] and the frame's [delta]. *)
Theorem use_frame_spec (p : page_props) (delta : R) (st : page_state) (bones : list rotation_obj) :
  skinned_mesh_bones st = Some bones ->
  exists bones',
    use_frame p delta st = PageState (group_rotation st) (Some bones') /\
    length bones' = length bones /\
    bones' !! 0%nat = bones !! 0%nat /\
    forall i, (1 <= i)%nat -> bones' !! i = bone_step p delta i <$> bones !! i.
Proof. apply use_frame_effect. Qed.

(** ** Witnesses *)

Definition sample_page : page_props := PageProps 2 false false.
Definition sample_state : page_state :=
  PageState (RotationObj 0 None) (Some [RotationObj 0 None; RotationObj 0 None; RotationObj 0 None]).

Lemma use_frame_spec_witness :
  exists bones',
    use_frame sample_page (1 / 60) sample_state = PageState (RotationObj 0 None) (Some bones') /\
    length bones' = 3%nat /\ bones' !! 0%nat = Some (RotationObj 0 None) /\
    forall i, (1 <= i)%nat ->
      bones' !! i = bone_step sample_page (1 / 60) i <$>
                      [RotationObj 0 None; RotationObj 0 None; RotationObj 0 None] !! i.
Proof.
  apply (use_frame_spec sample_page (1 / 60) sample_state
           [RotationObj 0 None; RotationObj 0 None; RotationObj 0 None]).
  reflexivity.
Defined.

Lemma inside_curve_intensity_increasing_witness :
  0 < inside_curve_intensity 2 < inside_curve_intensity 7.
Proof. apply inside_curve_intensity_increasing. lia. Defined.
