(* ===== verification/Lifecycle.v ===== *)
(** * The life of a page: renders, remounts and frames

    A [Page] of [src/src/components/Book.jsx] lives through two kinds of
    events.  A render evaluates the [useMemo] of lines 109-148, whose
    dependencies are [[number, picture, picture2]] (line 148): when they
    changed, a new [manualSkinnedMesh] is built, with new bones whose
    rotation objects are at 0 and carry no maath velocity yet, and the
    commit points [skinnedMeshRef] at it (line 190); the group of line
    187 is kept.  A frame runs the [useFrame] callback (lines 152-184,
    [Animator.use_frame]).  [page_step] is the effect of one event.

    The bounds below place the target of every bone [i >= 1] of page
    [number] within [curl_bound number] of 0, less than a quarter turn
    for pages numbered up to 637; [Maath.v] uses them to place the
    target of a bone at rest within half a turn, where the wrap of
    [dampAngle] is the identity. *)

From Stdlib Require Import Reals Lra Lia List QArith.
From stdpp Require Import base list.
From S2P Require Import Prelude Geometry Skeleton Damping Animator.
Import ListNotations.

Local Open Scope R_scope.

(** ** Renders and frames *)

(** The dependencies of the [useMemo] of lines 109-148. *)
Record memo_deps := MemoDeps {
  dep_number : nat;
  dep_picture : option nat;
  dep_picture2 : option nat
}.

#[export] Instance memo_deps_eq_dec : EqDecision memo_deps.
Proof. intros [a b c] [a' b' c']. unfold Decision. decide equality; solve_decision. Defined.

(** The memoised dependencies and the state the frames change. *)
Record page_life := PageLife {
  life_memo : option memo_deps;
  life_state : page_state
}.

(** The rotation objects of the bones of a new [manualSkinnedMesh]: one
    per bone of [Skeleton.make_page_mesh], each [new Bone()] at rotation
    0, without [__damp]. *)
Definition fresh_bones : list rotation_obj :=
  map (fun _ => RotationObj 0 None) (sm_bones (make_page_mesh pageGeometry SEGMENT_WIDTH PAGE_SEGMENTS)).

(** A render with dependencies [d] and its commit: the memoised mesh is
    kept when [d] is unchanged, rebuilt otherwise. *)
Definition render (d : memo_deps) (pl : page_life) : page_life :=
  if decide (life_memo pl = Some d) then pl
  else PageLife (Some d) (PageState (group_rotation (life_state pl)) (Some fresh_bones)).

Inductive page_event :=
| Render (d : memo_deps)
| Frame (p : page_props) (delta : R).

Definition page_step (pl : page_life) (ev : page_event) : page_life :=
  match ev with
  | Render d => render d pl
  | Frame p delta => PageLife (life_memo pl) (use_frame p delta (life_state pl))
  end.

(** Before the first render: no memo, no mesh, the group at rest. *)
Definition initial_life : page_life := PageLife None (PageState (RotationObj 0 None) None).

(** The largest curl of a bone of page [n]. *)
Definition curl_bound (n : nat) : R :=
  insideCurveStrength * (PI / 2 + degToRad (INR n * 0.8)).

(** ** Bounds on the targets *)

Lemma Rabs_le_iff (x y : R) : Rabs x <= y <-> - y <= x <= y.
Proof. unfold Rabs. destruct (Rcase_abs x); split; intros; lra. Qed.

Lemma degToRad_nonneg (n : nat) : 0 <= degToRad (INR n * 0.8).
Proof.
  unfold degToRad. pose proof (pos_INR n). pose proof PI_RGT_0.
  apply Rmult_le_pos; [lra | apply Rmult_le_pos; lra].
Qed.

Lemma curl_bound_nonneg (n : nat) : 0 <= curl_bound n.
Proof.
  unfold curl_bound, insideCurveStrength. pose proof (degToRad_nonneg n). pose proof PI_RGT_0.
  apply Rmult_le_pos; lra.
Qed.

Lemma inside_curve_intensity_bound (i : nat) : Rabs (inside_curve_intensity i) <= 1.
Proof.
  unfold inside_curve_intensity. destruct (i <? 8)%nat.
  - apply Rabs_le_iff. apply SIN_bound.
  - rewrite Rabs_R0. lra.
Qed.

(** The target of every bone [i >= 1] of page [n] lies within
    [curl_bound n] of 0. *)
Lemma rotation_angle_bound (p : page_props) (i : nat) :
  (1 <= i)%nat -> Rabs (rotation_angle p (target_rotation p) i) <= curl_bound (number p).
Proof.
  intros Hi. pose proof (curl_bound_nonneg (number p)) as Hb.
  unfold rotation_angle. destruct (bookClosed p) eqn:Hc.
  - destruct (Nat.eqb_spec i 0); [lia|]. rewrite Rabs_R0. exact Hb.
  - pose proof (degToRad_nonneg (number p)). pose proof PI_RGT_0.
    assert (Rabs (target_rotation p) <= PI / 2 + degToRad (INR (number p) * 0.8)).
    { unfold target_rotation. rewrite Hc. cbn [negb]. apply Rabs_le_iff. destruct (opened p); lra. }
    pose proof (inside_curve_intensity_bound i) as HI.
    unfold curl_bound. rewrite !Rabs_mult. unfold insideCurveStrength.
    rewrite (Rabs_pos_eq 0.15) by lra.
    pose proof (Rabs_pos (inside_curve_intensity i)). pose proof (Rabs_pos (target_rotation p)).
    rewrite Rmult_assoc. apply Rmult_le_compat_l; [lra|]. rewrite <- (Rmult_1_l (_ + _)).
    apply Rmult_le_compat; lra.
Qed.

(** Two bones of page [n <= 637] are less than half a turn apart. *)
Lemma curl_bound_half_turn (n : nat) : (n <= 637)%nat -> 2 * curl_bound n < PI.
Proof.
  intros Hn. apply le_INR in Hn. rewrite (INR_IZR_INZ 637) in Hn. change (Z.of_nat 637) with 637%Z in Hn.
  pose proof PI_RGT_0. pose proof (pos_INR n).
  unfold curl_bound, insideCurveStrength, degToRad. nra.
Qed.

(** The bones of a new mesh: [PAGE_SEGMENTS + 1] rotation objects at
    rest. *)
Lemma fresh_bones_repeat : fresh_bones = repeat (RotationObj 0 None) (S PAGE_SEGMENTS).
Proof.
  unfold fresh_bones. rewrite make_page_mesh_bones, <- (length_mesh_bones SEGMENT_WIDTH PAGE_SEGMENTS).
  generalize (mesh_bones SEGMENT_WIDTH PAGE_SEGMENTS) as l.
  induction l as [|b l IH]; simpl; [reflexivity|]. now rewrite IH.
Qed.
