(* ===== verification/Maath.v ===== *)
(** * maath's spring at the call of the animator

    [Damping.v] models maath's [damp] and [dampAngle]; [Animator.v] the
    callback of lines 152-184, which calls [dampAngle] on the rotation
    object of every bone [i >= 1] with [smoothTime = easingFactor = 0.5]
    ([omega = 4]).  This file analyses that call over many frames.

    Away from the target, a step of the spring on the distance [x] and
    velocity [v] is [x' = t ((1 + a) x + delta v)] and
    [v' = t ((1 - a) v - omega^2 delta x)], with [a = omega * delta] and
    [t = exp_maath(a)]; from rest ([v = 0], the state of the fresh bones
    of a mount) the frames follow the closed form
    [x_n = t^n (1 + n a) x_0], [v_n = - n omega^2 delta t^n x_0], which
    never crosses the target and shrinks below [eps], where [damp] sets
    the rotation to the target.

    The theorems: one frame never carries a bone past its target,
    whatever its velocity; from rest every bone reaches its target
    exactly after finitely many frames; after a remount, the frames of a
    closed book lay the page flat with bone 0 at 0; and, against the
    spec, the damping is not frame-rate independent and the velocity
    left by one target carries a bone away from the next. *)

From Stdlib Require Import Reals Lra Lia List.
From stdpp Require Import base list.
From S2P Require Import Prelude Geometry Damping Animator Lifecycle.
Import ListNotations.

Local Open Scope R_scope.

(** ** One step of the spring *)

Lemma omega_easingFactor : 2 / Rmax 0.0001 easingFactor = 4.
Proof. unfold easingFactor. rewrite Rmax_right by lra. lra. Qed.

(** [dampAngle] within half a turn of its target and [eps] of it: the
    snap. *)
Lemma dampAngle_call_snap (o : rotation_obj) (T delta : R) :
  - PI < T - rot_y o <= PI -> Rabs (rot_y o - T) <= maath_eps ->
  dampAngle_call o T delta = RotationObj T (Some (default 0 (velocity_y o))).
Proof.
  intros Hw Hs. unfold dampAngle_call, maath_dampAngle. rewrite deltaAngle_id by exact Hw.
  replace (rot_y o + (T - rot_y o)) with T by ring.
  unfold maath_damp. destruct (Rle_dec _ _); [reflexivity | contradiction].
Qed.

(** ... and farther than [eps]: one step of the spring, with its guard. *)
Lemma dampAngle_call_step (o : rotation_obj) (T delta : R) :
  - PI < T - rot_y o <= PI -> maath_eps < Rabs (rot_y o - T) ->
  let x := rot_y o - T in
  let v := default 0 (velocity_y o) in
  let temp := (v + 4 * x) * delta in
  let out := T + (x + temp) * maath_exp (4 * delta) in
  dampAngle_call o T delta =
  if Bool.eqb (js_gt (T - rot_y o) 0) (js_gt out T) then RotationObj T (Some 0)
  else RotationObj out (Some ((v - 4 * temp) * maath_exp (4 * delta))).
Proof.
  intros Hw Hf x v temp out. unfold dampAngle_call, maath_dampAngle. rewrite deltaAngle_id by exact Hw.
  replace (rot_y o + (T - rot_y o)) with T by ring.
  unfold maath_damp. destruct (Rle_dec _ _) as [H|_]; [lra|]. cbv zeta.
  rewrite omega_easingFactor. replace (rot_y o - (rot_y o - T)) with T by ring.
  replace ((T - T) / delta) with 0 by (unfold Rdiv; ring). reflexivity.
Qed.

(** At its target the call only snaps. *)
Lemma dampAngle_call_at_target (o : rotation_obj) (T delta : R) :
  rot_y o = T -> rot_y (dampAngle_call o T delta) = T.
Proof.
  intros Ho. pose proof PI_RGT_0.
  rewrite dampAngle_call_snap; [reflexivity | rewrite Ho; lra |].
  rewrite Ho, Rminus_diag, Rabs_R0. unfold maath_eps. lra.
Qed.

(** ** The spring toward a fixed target *)

Section Spring.
Variables (T delta : R).
Hypothesis delta_pos : 0 < delta.

Lemma spring_rate : 0 < maath_exp (4 * delta) /\ maath_exp (4 * delta) * (1 + 4 * delta) < 1.
Proof. apply maath_exp_rate. lra. Qed.

(** The coefficient [t^n (1 + n a)] of the closed form lies in [(0, 1]]. *)
Lemma spring_coeff_bounds (n : nat) :
  0 < maath_exp (4 * delta) ^ n * (1 + INR n * (4 * delta)) <=
      (maath_exp (4 * delta) * (1 + 4 * delta)) ^ n.
Proof.
  destruct spring_rate as [Ht Hq]. pose proof (pos_INR n).
  split; [apply Rmult_lt_0_compat; [apply pow_lt; lra | nra]|].
  rewrite Rpow_mult_distr.
  apply Rmult_le_compat_l; [apply pow_le; lra | apply bernoulli; lra].
Qed.

Lemma spring_coeff_le_1 (n : nat) : maath_exp (4 * delta) ^ n * (1 + INR n * (4 * delta)) <= 1.
Proof.
  destruct spring_rate as [Ht Hq]. destruct (spring_coeff_bounds n) as [_ H].
  pose proof (pow_incr (maath_exp (4 * delta) * (1 + 4 * delta)) 1 n) as H1.
  rewrite pow1 in H1. eapply Rle_trans; [exact H|]. apply H1. nra.
Qed.

(** A value on the closed form stays within half a turn of the target. *)
Lemma spring_range (o : rotation_obj) (x0 : R) (n : nat) :
  - PI < - x0 <= PI ->
  rot_y o - T = maath_exp (4 * delta) ^ n * (1 + INR n * (4 * delta)) * x0 ->
  - PI < T - rot_y o <= PI.
Proof.
  intros Hx Hp. pose proof PI_RGT_0. pose proof (spring_coeff_le_1 n).
  destruct (spring_coeff_bounds n) as [Hc _].
  set (c := maath_exp (4 * delta) ^ n * (1 + INR n * (4 * delta))) in *.
  replace (T - rot_y o) with (c * - x0) by lra.
  destruct (Rle_dec 0 x0); split; nra.
Qed.

(** One frame on the closed form: step [n] to step [n + 1]. *)
Lemma spring_step (o : rotation_obj) (x0 : R) (n : nat) :
  - PI < - x0 <= PI ->
  rot_y o - T = maath_exp (4 * delta) ^ n * (1 + INR n * (4 * delta)) * x0 ->
  default 0 (velocity_y o) = - INR n * (16 * delta) * maath_exp (4 * delta) ^ n * x0 ->
  maath_eps < Rabs (rot_y o - T) ->
  rot_y (dampAngle_call o T delta) - T =
    maath_exp (4 * delta) ^ S n * (1 + INR (S n) * (4 * delta)) * x0 /\
  default 0 (velocity_y (dampAngle_call o T delta)) =
    - INR (S n) * (16 * delta) * maath_exp (4 * delta) ^ S n * x0.
Proof.
  intros Hx Hp Hv Hf.
  pose proof (spring_range o x0 n Hx Hp) as Hw.
  destruct (spring_coeff_bounds n) as [Hc _]. destruct (spring_coeff_bounds (S n)) as [Hc' _].
  rewrite (dampAngle_call_step o T delta Hw Hf). cbv zeta.
  set (t := maath_exp (4 * delta)) in *.
  set (out := T + (rot_y o - T + (default 0 (velocity_y o) + 4 * (rot_y o - T)) * delta) * t).
  assert (Hout : out - T = t ^ S n * (1 + INR (S n) * (4 * delta)) * x0).
  { subst out. rewrite Hp, Hv, S_INR. simpl pow. ring. }
  assert (Hx0 : x0 <> 0) by (intros ->; rewrite Hp, Rmult_0_r, Rabs_R0 in Hf; unfold maath_eps in Hf; lra).
  rewrite guard_same_side.
  - cbn iota. cbn [rot_y velocity_y]. split; [exact Hout|].
    rewrite Hp, Hv, S_INR. simpl. ring.
  - destruct (Rlt_dec 0 x0); [right | left]; split.
    all: try (assert (0 < x0 \/ x0 < 0) as [|] by lra); nra.
Qed.

(** From rest ([velocity_y] undefined or 0) within half a turn of the
    target, frame [n] leaves the bone at the target or on the closed
    form of the critically damped spring: distance [t^n (1 + n a) x_0]
    and velocity [- n omega^2 delta t^n x_0], [a = omega * delta],
    [omega = 4]. *)
Lemma spring_closed_form (o : rotation_obj) (n : nat) :
  default 0 (velocity_y o) = 0 -> - PI < T - rot_y o <= PI ->
  let o' := Nat.iter n (fun o => dampAngle_call o T delta) o in
  rot_y o' = T \/
  (rot_y o' - T = maath_exp (4 * delta) ^ n * (1 + INR n * (4 * delta)) * (rot_y o - T) /\
   default 0 (velocity_y o') = - INR n * (16 * delta) * maath_exp (4 * delta) ^ n * (rot_y o - T)).
Proof.
  intros Hv Hw. cbv zeta. assert (Hx : - PI < - (rot_y o - T) <= PI) by lra.
  induction n as [|n IH].
  - right. simpl. split; [ring | rewrite Hv; ring].
  - rewrite Nat.iter_succ. destruct IH as [Heq | [Hp Hv']].
    + left. apply dampAngle_call_at_target, Heq.
    + destruct (Rle_dec (Rabs (rot_y (Nat.iter n (fun o => dampAngle_call o T delta) o) - T)) maath_eps).
      * left. rewrite dampAngle_call_snap; [reflexivity | eapply spring_range; eauto | assumption].
      * right. apply spring_step; [exact Hx | exact Hp | exact Hv' | lra].
Qed.

(** The closed form falls below [eps] after finitely many frames. *)
Lemma spring_small (x0 : R) :
  exists N, maath_exp (4 * delta) ^ N * (1 + INR N * (4 * delta)) * Rabs x0 <= maath_eps.
Proof.
  destruct spring_rate as [Ht Hq]. pose proof (Rabs_pos x0).
  set (q := maath_exp (4 * delta) * (1 + 4 * delta)) in Hq.
  assert (Hq0 : 0 <= q) by (unfold q; nra).
  destruct (pow_lt_1_zero q ltac:(rewrite Rabs_pos_eq; lra) (maath_eps / (Rabs x0 + 1)))
    as [N HN]; [unfold maath_eps; apply Rdiv_lt_0_compat; lra|].
  exists N. specialize (HN N (le_n N)). rewrite Rabs_pos_eq in HN by (apply pow_le; lra).
  destruct (spring_coeff_bounds N) as [Hc Hle]. fold q in Hle.
  apply Rmult_le_compat_r with (r := Rabs x0) in Hle; [|lra].
  eapply Rle_trans; [exact Hle|].
  apply (Rmult_lt_compat_r (Rabs x0 + 1)) in HN; [|lra].
  unfold Rdiv in HN. rewrite Rmult_assoc, Rinv_l in HN by lra.
  unfold maath_eps in *. pose proof (pow_le q N Hq0). nra.
Qed.

(** Liveness of one bone: from rest within half a turn of a fixed
    target, the frames bring the bone exactly to the target after
    finitely many frames, and it stays there. *)
Lemma spring_settles (o : rotation_obj) :
  default 0 (velocity_y o) = 0 -> - PI < T - rot_y o <= PI ->
  exists N, forall n, (N <= n)%nat -> rot_y (Nat.iter n (fun o => dampAngle_call o T delta) o) = T.
Proof.
  intros Hv Hw. destruct (spring_small (rot_y o - T)) as [N HN]. exists (S N).
  assert (HSN : rot_y (Nat.iter (S N) (fun o => dampAngle_call o T delta) o) = T).
  { rewrite Nat.iter_succ.
    destruct (spring_closed_form o N Hv Hw) as [Heq | [Hp _]]; [apply dampAngle_call_at_target, Heq|].
    rewrite dampAngle_call_snap; [reflexivity | eapply spring_range; [|exact Hp]; lra|].
    rewrite Hp, Rabs_mult, (Rabs_pos_eq (_ * _)); [exact HN|].
    apply Rlt_le, spring_coeff_bounds. }
  intros n Hn. replace n with (n - S N + S N)%nat by lia. rewrite Nat.iter_add.
  induction (n - S N)%nat as [|k IH]; [exact HSN|].
  rewrite Nat.iter_succ. apply dampAngle_call_at_target, IH.
Qed.
End Spring.

(** ** The frame of a page *)

(** Liveness from rest, for the whole page: with fixed props and a fixed
    positive frame time, bones [i >= 1] at rest within half a turn of
    their targets reach them exactly after finitely many frames. *)
Lemma frames_settle (p : page_props) (delta : R) (st : page_state) (bones : list rotation_obj) :
  0 < delta -> skinned_mesh_bones st = Some bones ->
  (forall i o, (1 <= i)%nat -> bones !! i = Some o ->
     default 0 (velocity_y o) = 0 /\ - PI < rotation_angle p (target_rotation p) i - rot_y o <= PI) ->
  exists N, forall n, (N <= n)%nat ->
    group_rotation (run_frames (repeat (p, delta) n) st) = group_rotation st /\
    (map rot_y <$> skinned_mesh_bones (run_frames (repeat (p, delta) n) st)) =
      Some (target_pose p (map rot_y bones)).
Proof.
  intros Hd Hb Hrest.
  destruct (eventually_forall_lt (length bones)
    (fun i n => forall o, bones !! i = Some o -> (i =? 0)%nat = false ->
       rot_y (Nat.iter n (bone_step p delta i) o) = rotation_angle p (target_rotation p) i))
    as [N HN].
  { intros i _. destruct (bones !! i) as [o|] eqn:Ho; [|exists 0%nat; intros n _ o' Ho'; congruence].
    destruct (Nat.eqb_spec i 0) as [->|Hi]; [exists 0%nat; intros n _ o' _ H; discriminate|].
    destruct (Hrest i o ltac:(lia) Ho) as [Hv Hw].
    destruct (spring_settles _ delta Hd o Hv Hw) as [N HN].
    exists N. intros n Hn o' Ho' _. injection Ho' as <-. apply HN, Hn. }
  exists N. intros n Hn. rewrite (run_frames_repeat p delta n st bones Hb). split; [reflexivity|].
  simpl. f_equal. apply list_eq. intros i. unfold target_pose.
  change (map ?g ?l) with (g <$> l). rewrite list_lookup_fmap, !list_lookup_imap, list_lookup_fmap.
  destruct (bones !! i) as [o|] eqn:Ho; [|reflexivity]. simpl.
  destruct (i =? 0)%nat eqn:Hi; [reflexivity|]. f_equal.
  apply (HN n Hn i); [apply lookup_lt_Some in Ho; exact Ho | exact Ho | exact Hi].
Qed.

(** A render with new dependencies, then frames: the frames run on the
    fresh bones. *)
Lemma remount_then_frames (pl : page_life) (d : memo_deps) (p : page_props) (delta : R) (n : nat) :
  life_memo pl <> Some d ->
  fold_left page_step (Render d :: repeat (Frame p delta) n) pl =
  PageLife (Some d) (run_frames (repeat (p, delta) n)
                       (PageState (group_rotation (life_state pl)) (Some fresh_bones))).
Proof.
  intros Hd. cbn [fold_left page_step]. unfold render. rewrite decide_False by exact Hd.
  generalize (PageState (group_rotation (life_state pl)) (Some fresh_bones)) as st.
  induction n as [|n IH]; intros st; [reflexivity|]. simpl. apply IH.
Qed.

Lemma lookup_repeat {A} (x : A) (n i : nat) :
  repeat x n !! i = if decide (i < n)%nat then Some x else None.
Proof.
  revert i. induction n as [|n IH]; intros [|i]; simpl; try reflexivity.
  - rewrite IH. repeat case_decide; try reflexivity; lia.
Qed.

Lemma fresh_bones_rest : Forall (fun o => o = RotationObj 0 None) fresh_bones.
Proof.
  rewrite fresh_bones_repeat. apply List.Forall_forall.
  intros o Ho. now apply repeat_spec in Ho.
Qed.

(** C5: One frame of the callback (lines 152-184) with maath's
    [dampAngle] never carries a bone past its target: whatever velocity
    the bone carries, a bone [i >= 1] within half a turn of its target
    ends the frame on the side of the target it started on, or at the
    target. *)
Theorem use_frame_no_overshoot (p : page_props) (delta : R) (st : page_state)
    (bones : list rotation_obj) (i : nat) (o : rotation_obj) :
  skinned_mesh_bones st = Some bones -> (1 <= i)%nat -> bones !! i = Some o ->
  let T := rotation_angle p (target_rotation p) i in
  - PI < T - rot_y o <= PI ->
  exists o', (skinned_mesh_bones (use_frame p delta st) ≫= (.!! i)) = Some o' /\
    (rot_y o <= T -> rot_y o' <= T) /\ (T <= rot_y o -> T <= rot_y o').
Proof.
  intros Hb Hi Ho T Hw. rewrite (use_frame_pose p delta st bones Hb). simpl.
  unfold frame_pose. rewrite list_lookup_imap, Ho. simpl.
  destruct (Nat.eqb_spec i 0) as [|_]; [lia|].
  eexists. split; [reflexivity|].
  unfold bone_step, dampAngle_call, maath_dampAngle. fold T.
  rewrite deltaAngle_id by exact Hw. replace (rot_y o + (T - rot_y o)) with T by ring.
  apply maath_damp_no_overshoot. unfold maath_eps. lra.
Qed.

(** C3: Liveness with maath's damper: with fixed props and a fixed
    positive frame time, a mounted page whose bones [i >= 1] are at rest
    (as the fresh bones of a mount are) within half a turn of their
    targets reaches its target pose exactly after finitely many frames
    and stays there; the group and bone 0 keep their rotation. *)
Theorem frames_reach_target_pose (p : page_props) (delta : R) (st : page_state)
    (bones : list rotation_obj) :
  0 < delta -> skinned_mesh_bones st = Some bones ->
  (forall i o, (1 <= i)%nat -> bones !! i = Some o ->
     default 0 (velocity_y o) = 0 /\ - PI < rotation_angle p (target_rotation p) i - rot_y o <= PI) ->
  exists N, forall n, (N <= n)%nat ->
    group_rotation (run_frames (repeat (p, delta) n) st) = group_rotation st /\
    (map rot_y <$> skinned_mesh_bones (run_frames (repeat (p, delta) n) st)) =
      Some (target_pose p (map rot_y bones)).
Proof. apply frames_settle. Qed.

(** C4: A closed book lies flat, against the spec's "bone 0 turns to
    -90 or +90 degrees": after a render that rebuilds the mesh (new
    [useMemo] dependencies), the frames of a closed book bring every bone
    of the page to rotation 0 after finitely many frames, bone 0
    included (it is never damped), and leave the group as it was. *)
Theorem remount_closed_book_flattens (pl : page_life) (d : memo_deps) (p : page_props) (delta : R) :
  life_memo pl <> Some d -> bookClosed p = true -> 0 < delta ->
  exists N, forall n, (N <= n)%nat ->
    let pl' := fold_left page_step (Render d :: repeat (Frame p delta) n) pl in
    group_rotation (life_state pl') = group_rotation (life_state pl) /\
    (map rot_y <$> skinned_mesh_bones (life_state pl')) = Some (repeat 0 (S PAGE_SEGMENTS)).
Proof.
  intros Hd Hc Hdelta. pose proof PI_RGT_0.
  destruct (frames_settle p delta (PageState (group_rotation (life_state pl)) (Some fresh_bones))
              fresh_bones Hdelta eq_refl) as [N HN].
  { intros i o Hi Ho. rewrite (proj1 (Forall_lookup _ fresh_bones) fresh_bones_rest i o Ho).
    unfold rotation_angle. rewrite Hc. destruct (Nat.eqb_spec i 0); [lia|].
    split; [reflexivity|]. simpl. lra. }
  exists N. intros n Hn. cbv zeta. rewrite remount_then_frames by exact Hd.
  destruct (HN n Hn) as [Hg Hb]. split; [exact Hg|]. cbn [life_state]. rewrite Hb. f_equal.
  rewrite fresh_bones_repeat. apply list_eq. intros i. unfold target_pose.
  rewrite list_lookup_imap. change (map ?g ?l) with (g <$> l). rewrite list_lookup_fmap, !lookup_repeat.
  case_decide; [|reflexivity]. simpl. f_equal.
  unfold rotation_angle. rewrite Hc. now destruct (i =? 0)%nat.
Qed.
(** ** Frame rate and momentum *)

Lemma maath_exp_quarter : maath_exp (4 * (1 / 4)) = 200 / 543.
Proof.
  unfold maath_exp. replace (4 * (1 / 4)) with 1 by lra.
  unfold Q2R; cbn [QArith_base.Qnum QArith_base.Qden]. field.
Qed.

Lemma maath_exp_half : maath_exp (4 * (1 / 2)) = 5 / 34.
Proof.
  unfold maath_exp. replace (4 * (1 / 2)) with 2 by lra.
  unfold Q2R; cbn [QArith_base.Qnum QArith_base.Qden]. field.
Qed.

Lemma Rabs_between (u : R) : 1 / 100 <= Rabs u <= 3 -> (1 / 100 <= u <= 3) \/ (-3 <= u <= - (1 / 100)).
Proof. unfold Rabs. destruct (Rcase_abs u); lra. Qed.

(** The first frame of a quarter second from rest at [c] toward [T]. *)
Lemma rest_quarter_frame (c T : R) :
  1 / 100 <= Rabs (T - c) <= 3 ->
  let o1 := dampAngle_call (RotationObj c None) T (1 / 4) in
  rot_y o1 - T = 400 / 543 * (c - T) /\ default 0 (velocity_y o1) = - (800 / 543) * (c - T) /\
  - PI < - (c - T) <= PI.
Proof.
  intros Hr o1. pose proof PI_bounds. apply Rabs_between in Hr.
  assert (Hx : - PI < - (c - T) <= PI) by lra.
  destruct (spring_step T (1 / 4) ltac:(lra) (RotationObj c None) (c - T) 0 Hx)
    as [Hp Hv]; [simpl; ring | simpl; ring | simpl; unfold Rabs, maath_eps; destruct (Rcase_abs _); lra |].
  fold o1 in Hp, Hv. rewrite maath_exp_quarter in Hp, Hv. simpl in Hp, Hv.
  split; [lra | split; [lra | exact Hx]].
Qed.

(** C8: maath's damping is not frame-rate independent, against the
    spec's "frame-rate-independent smoothing": from rest, two frames of
    a quarter second and one frame of half a second toward the same
    target leave a bone at different rotations, [120000/294849] and
    [15/34] of its initial distance from the target. *)
Theorem dampAngle_frame_rate (c T : R) :
  1 / 100 <= Rabs (T - c) <= 3 ->
  let o := RotationObj c None in
  rot_y (dampAngle_call (dampAngle_call o T (1 / 4)) T (1 / 4)) - T = 120000 / 294849 * (c - T) /\
  rot_y (dampAngle_call o T (1 / 2)) - T = 15 / 34 * (c - T) /\
  rot_y (dampAngle_call (dampAngle_call o T (1 / 4)) T (1 / 4)) <> rot_y (dampAngle_call o T (1 / 2)).
Proof.
  intros Hr o. subst o. pose proof (Rabs_between _ Hr) as Hu.
  destruct (rest_quarter_frame c T Hr) as [H1 [V1 Hx]].
  destruct (spring_step T (1 / 4) ltac:(lra) (dampAngle_call (RotationObj c None) T (1 / 4)) (c - T) 1 Hx)
    as [H2 _]; [rewrite maath_exp_quarter; simpl; lra | rewrite maath_exp_quarter, V1; simpl; lra
               | rewrite H1; unfold Rabs, maath_eps; destruct (Rcase_abs _); lra |].
  destruct (spring_step T (1 / 2) ltac:(lra) (RotationObj c None) (c - T) 0 Hx)
    as [H3 _]; [simpl; ring | simpl; ring | simpl; unfold Rabs, maath_eps; destruct (Rcase_abs _); lra |].
  rewrite maath_exp_quarter in H2. rewrite maath_exp_half in H3. simpl in H2, H3.
  split; [lra | split; [lra | lra]].
Qed.

(** C12: The velocity outlives the target, against the spec's "repeated
    calls move rotation strictly closer to a fixed target": a bone at
    rest at [c] damped for one frame toward [T], then toward [c] again
    (a page turned and turned back), moves on the next frame farther
    from its new target [c], from [143/543] to [97200/294849] of
    [T - c]. *)
Theorem dampAngle_momentum (c T : R) :
  1 / 100 <= Rabs (T - c) <= 3 ->
  let o1 := dampAngle_call (RotationObj c None) T (1 / 4) in
  let o2 := dampAngle_call o1 c (1 / 4) in
  rot_y o1 - c = 143 / 543 * (T - c) /\ rot_y o2 - c = 97200 / 294849 * (T - c) /\
  Rabs (rot_y o1 - c) < Rabs (rot_y o2 - c).
Proof.
  intros Hr o1 o2. pose proof (Rabs_between _ Hr) as Hu. pose proof PI_bounds.
  destruct (rest_quarter_frame c T Hr) as [H1 [V1 _]]. fold o1 in H1, V1.
  assert (E1 : rot_y o1 = c + 143 / 543 * (T - c)) by lra.
  assert (Hw : - PI < c - rot_y o1 <= PI) by lra.
  assert (Hf : maath_eps < Rabs (rot_y o1 - c)) by (unfold Rabs, maath_eps; destruct (Rcase_abs _); lra).
  assert (E2 : rot_y o2 = c + 97200 / 294849 * (T - c)).
  { subst o2. rewrite (dampAngle_call_step o1 c (1 / 4) Hw Hf). cbv zeta.
    rewrite maath_exp_quarter, V1, E1, guard_same_side by lra. simpl. lra. }
  rewrite E1, E2. split; [ring | split; [ring|]].
  unfold Rabs. repeat destruct (Rcase_abs _); lra.
Qed.


(** ** Witnesses *)

(** Bone [i >= 1] of page [n <= 637] at rotation [r] is within half a
    turn of its target when [|r| <= 1/2]. *)
Lemma target_within_half_turn (p : page_props) (i : nat) (r : R) :
  (number p <= 637)%nat -> (1 <= i)%nat -> Rabs r <= 1 / 2 ->
  - PI < rotation_angle p (target_rotation p) i - r <= PI.
Proof.
  intros Hn Hi Hr. pose proof (rotation_angle_bound p i Hi) as Hb.
  pose proof (curl_bound_half_turn _ Hn). pose proof PI_bounds.
  apply Rabs_le_iff in Hb, Hr. lra.
Qed.

Lemma use_frame_no_overshoot_witness :
  exists o', (skinned_mesh_bones (use_frame (PageProps 5 true false) (1 / 60)
                (PageState (RotationObj 0 None) (Some [RotationObj 0 None; RotationObj (1 / 2) (Some 5)])))
              ≫= (.!! 1%nat)) = Some o' /\
    (1 / 2 <= rotation_angle (PageProps 5 true false) (target_rotation (PageProps 5 true false)) 1 ->
       rot_y o' <= rotation_angle (PageProps 5 true false) (target_rotation (PageProps 5 true false)) 1) /\
    (rotation_angle (PageProps 5 true false) (target_rotation (PageProps 5 true false)) 1 <= 1 / 2 ->
       rotation_angle (PageProps 5 true false) (target_rotation (PageProps 5 true false)) 1 <= rot_y o').
Proof.
  apply (use_frame_no_overshoot (PageProps 5 true false) (1 / 60)
           (PageState (RotationObj 0 None) (Some [RotationObj 0 None; RotationObj (1 / 2) (Some 5)]))
           [RotationObj 0 None; RotationObj (1 / 2) (Some 5)] 1 (RotationObj (1 / 2) (Some 5)));
    [reflexivity | lia | reflexivity |].
  apply target_within_half_turn; [simpl; lia | lia | simpl; rewrite Rabs_pos_eq; lra].
Defined.

Lemma frames_reach_target_pose_witness :
  exists N, forall n, (N <= n)%nat ->
    group_rotation (run_frames (repeat (PageProps 5 true false, 1 / 60) n)
                      (PageState (RotationObj 0 None) (Some fresh_bones))) = RotationObj 0 None /\
    (map rot_y <$> skinned_mesh_bones (run_frames (repeat (PageProps 5 true false, 1 / 60) n)
                                         (PageState (RotationObj 0 None) (Some fresh_bones)))) =
      Some (target_pose (PageProps 5 true false) (map rot_y fresh_bones)).
Proof.
  apply (frames_reach_target_pose (PageProps 5 true false) (1 / 60)
           (PageState (RotationObj 0 None) (Some fresh_bones)) fresh_bones); [lra | reflexivity |].
  intros i o Hi Ho. rewrite (proj1 (Forall_lookup _ fresh_bones) fresh_bones_rest i o Ho).
  split; [reflexivity|]. apply target_within_half_turn; [simpl; lia | exact Hi |].
  simpl. rewrite Rabs_R0. lra.
Defined.

Lemma remount_closed_book_flattens_witness :
  exists N, forall n, (N <= n)%nat ->
    let pl' := fold_left page_step (Render (MemoDeps 0 None None) :: repeat (Frame (PageProps 0 false true) (1 / 60)) n)
                 initial_life in
    group_rotation (life_state pl') = RotationObj 0 None /\
    (map rot_y <$> skinned_mesh_bones (life_state pl')) = Some (repeat 0 (S PAGE_SEGMENTS)).
Proof.
  apply (remount_closed_book_flattens initial_life (MemoDeps 0 None None) (PageProps 0 false true) (1 / 60));
    [discriminate | reflexivity | lra].
Defined.

Lemma dampAngle_frame_rate_witness :
  let o := RotationObj 0 None in
  rot_y (dampAngle_call (dampAngle_call o 1 (1 / 4)) 1 (1 / 4)) - 1 = 120000 / 294849 * (0 - 1) /\
  rot_y (dampAngle_call o 1 (1 / 2)) - 1 = 15 / 34 * (0 - 1) /\
  rot_y (dampAngle_call (dampAngle_call o 1 (1 / 4)) 1 (1 / 4)) <> rot_y (dampAngle_call o 1 (1 / 2)).
Proof. apply (dampAngle_frame_rate 0 1). rewrite Rminus_0_r, Rabs_R1. lra. Defined.

Lemma dampAngle_momentum_witness :
  let o1 := dampAngle_call (RotationObj 0 None) 1 (1 / 4) in
  let o2 := dampAngle_call o1 0 (1 / 4) in
  rot_y o1 - 0 = 143 / 543 * (1 - 0) /\ rot_y o2 - 0 = 97200 / 294849 * (1 - 0) /\
  Rabs (rot_y o1 - 0) < Rabs (rot_y o2 - 0).
Proof. apply (dampAngle_momentum 0 1). rewrite Rminus_0_r, Rabs_R1. lra. Defined.
