(* ===== verification/Book.v ===== *)
(** * The book: one animated page per page descriptor

    Models the [Book] component of [src/src/components/Book.jsx] (lines
    197-211) and the props it gives every [Page] (lines 202-209): page
    [index] gets [number = index], [opened = page > index],
    [bookClosed = page === 0 || page === pages.length] and a z offset
    [-number * PAGE_DEPTH + page * PAGE_DEPTH] (line 191).  The page list
    and the current page come from [UI.jsx], which is not part of the
    sources: a descriptor is modelled from the spec as a pair of texture
    names.

    The theorems show that the opened pages are the prefix below the
    current page, that pages are stacked in index order with the current
    page at depth 0, and that turning one page forward opens exactly
    that page and, unless the book opens or closes, leaves the targets of
    the others alone. *)

From Stdlib Require Import QArith Reals Lra Lqa Lia List String.
From stdpp Require Import base list sets.
From S2P Require Import Prelude Geometry Animator.
Import ListNotations.

(** ** Props of the pages *)

(** An entry of [pages] in [UI.jsx]. *)
Record page_descriptor := PageDescriptor { front : string; back : string }.

(** Lines 203-208: the props [Book] passes to page [index]. *)
Definition page_props_of (page npages index : nat) : page_props :=
  PageProps index (index <? page)%nat ((page =? 0) || (page =? npages))%nat.

(** Line 191: [position-z={-number * PAGE_DEPTH + page * PAGE_DEPTH}]. *)
Definition page_z (page number : nat) : Q :=
  (- qnat number * PAGE_DEPTH + qnat page * PAGE_DEPTH)%Q.

(** Lines 201-210: [[...pages].map((pageData, index) => <Page .../>)]. *)
Definition book_props (pages : list page_descriptor) (page : nat) : list page_props :=
  imap (fun index _ => page_props_of page (length pages) index) pages.

(** ** Props and stacking *)

Lemma book_props_seq (pages : list page_descriptor) (page : nat) :
  book_props pages page = map (page_props_of page (length pages)) (seq 0 (length pages)).
Proof.
  apply list_eq. intros i. unfold book_props. rewrite list_lookup_imap.
  change (map ?g ?l) with (g <$> l). rewrite list_lookup_fmap.
  destruct (pages !! i) eqn:Hp.
  - apply lookup_lt_Some in Hp. destruct (seq 0 (length pages) !! i) eqn:Hs.
    + apply lookup_seq in Hs as [-> _]. reflexivity.
    + apply lookup_ge_None in Hs. rewrite length_seq in Hs. lia.
  - apply lookup_ge_None in Hp. rewrite lookup_seq_ge by exact Hp. reflexivity.
Qed.

Lemma opened_count (page M n : nat) :
  length (List.filter opened (map (page_props_of page M) (seq 0 n))) = Nat.min page n.
Proof.
  induction n as [|n IH]; [simpl; lia|].
  rewrite seq_S, map_app, List.filter_app, length_app, IH. simpl.
  destruct (Nat.ltb_spec n page); simpl; lia.
Qed.

(** C13: The opened pages are the [min page (length pages)] first ones:
    page [index] is opened exactly when [index < page]. *)
Theorem book_props_opened (pages : list page_descriptor) (page : nat) :
  length (List.filter opened (book_props pages page)) = Nat.min page (length pages) /\
  forall index p, book_props pages page !! index = Some p ->
    number p = index /\ (opened p = true <-> (index < page)%nat).
Proof.
  rewrite book_props_seq. split; [apply opened_count|].
  intros index p Hp. change (map ?g ?l) with (g <$> l) in Hp.
  rewrite list_lookup_fmap in Hp.
  destruct (seq 0 (length pages) !! index) eqn:Hs; [|discriminate].
  apply lookup_seq in Hs as [-> _]. injection Hp as <-. simpl.
  split; [reflexivity|]. apply Nat.ltb_lt.
Qed.

(** A later page lies at least one [PAGE_DEPTH] below an earlier one. *)
Lemma page_z_step (page i j : nat) :
  (i < j)%nat -> (page_z page j + PAGE_DEPTH <= page_z page i)%Q.
Proof.
  intros Hij. unfold page_z. assert (qnat (S i) <= qnat j)%Q by (apply qnat_le; lia).
  rewrite qnat_succ in H. unfold PAGE_DEPTH. qlra.
Qed.

(** C14: Pages are stacked by index, one [PAGE_DEPTH] apart, and the
    current page is at depth 0. *)
Theorem page_z_stacking (page i j : nat) :
  page_z page page == 0 /\
  ((i < j)%nat -> (page_z page j + PAGE_DEPTH <= page_z page i)%Q).
Proof.
  split; [unfold page_z, PAGE_DEPTH; qlra | apply page_z_step].
Qed.

(** ** Turning a page *)

(** C25: Turning one page forward, from [page] to [page + 1] (the store of
    [UI.jsx] moves the current page), opens exactly page [page]: every
    other page keeps [opened] and its number, and as long as the book
    neither opens nor closes ([bookClosed] unchanged) the target angle
    of every other page is unchanged, so only page [page] moves. *)
Theorem turn_page_forward (npages page index : nat) :
  (page < npages)%nat -> (index < npages)%nat ->
  let before := page_props_of page npages index in
  let after := page_props_of (S page) npages index in
  number after = number before /\
  (index = page -> opened before = false /\ opened after = true) /\
  (index <> page -> opened after = opened before /\
     (bookClosed after = bookClosed before -> target_rotation after = target_rotation before)).
Proof.
  intros Hp Hi. cbv zeta. unfold page_props_of, target_rotation. cbn [number opened bookClosed].
  split; [reflexivity|]. split.
  - intros ->. split; [apply Nat.ltb_irrefl | apply Nat.ltb_lt; lia].
  - intros Hne. assert (E : (index <? S page)%nat = (index <? page)%nat).
    { destruct (Nat.ltb_spec index (S page)), (Nat.ltb_spec index page); lia. }
    rewrite E. split; [reflexivity|]. intros ->. reflexivity.
Qed.

(** ** Witnesses *)

Lemma page_z_stacking_witness :
  page_z 3 3 == 0 /\ (page_z 3 5 + PAGE_DEPTH <= page_z 3 2)%Q.
Proof.
  destruct (page_z_stacking 3 2 5) as [H0 H1]. split; [exact H0 | apply H1; lia].
Defined.

Lemma turn_page_forward_witness :
  (1 < 3)%nat /\ (1 < 3)%nat /\
  opened (page_props_of 1 3 1) = false /\ opened (page_props_of 2 3 1) = true.
Proof.
  split; [lia|]. split; [lia|].
  destruct (turn_page_forward 3 1 1 ltac:(lia) ltac:(lia)) as [_ [H _]].
  exact (H eq_refl).
Defined.
