(* ===== verification/Textures.v ===== *)
(** * Texture URLs, preloading and the suspension of a page

    Models lines 91-100 of [src/src/components/Book.jsx].  At module load
    the program calls, for every descriptor of [pages],
    [useTexture.preload] on [`/textures/${page.front}.jpg`] and on
    [`/textures/${page.back}.jpg`]; every [Page] calls [useTexture] on
    the array of its two URLs (lines 97-100).  Both go through
    react-three-fiber's [useLoader] (v8), which keeps its results in the
    cache of suspend-react under the key [[TextureLoader, ...urls]]:
    [preload(url)] stores the key [[url]], a page suspends on the key
    [[front, back]].  A key is looked up by shallow equality; on a miss
    [suspend] starts the load, stores a pending entry and throws its
    promise (the page suspends); a pending entry throws the promise, a
    rejected one the error, a resolved one returns the textures.  The
    loader is always [TextureLoader] and is left out of the keys.

    The theorems show that the preloading loop stores one key per
    distinct URL, each once;
    that the key a page suspends on is never one of them, so the first
    render of every page suspends and starts loads of its own; and that
    once its loads settle a page either gets its two textures, in the
    order [front], [back], at every render, or throws the load error at
    every render.  What a load yields is an event of the host: a function
    from URLs to the texture loaded, or a failure. *)

From Stdlib Require Import List String Ascii Bool Lia.
From S2P Require Import Book.
Import ListNotations.


(** ** URLs *)

(** [`/textures/${name}.jpg`] *)
Definition texture_url (name : string) : string := ("/textures/" ++ name ++ ".jpg")%string.

(** ** The suspend-react cache *)

(** The URLs of a [useLoader] key. *)
Local Abbreviation cache_key := (list string) (only parsing).

Inductive entry_state :=
| Pending                          (** the loads are running *)
| Resolved (textures : list nat)   (** the loaded textures, in the order of the key *)
| Rejected.                        (** a load failed *)

Local Abbreviation suspend_cache := (list (cache_key * entry_state)) (only parsing).

(** The entry of [key], compared by shallow equality. *)
Fixpoint cache_find (key : cache_key) (cache : suspend_cache) : option entry_state :=
  match cache with
  | [] => None
  | (k, st) :: cache' => if list_eq_dec string_dec k key then Some st else cache_find key cache'
  end.

(** [useTexture.preload(url)], i.e. [useLoader.preload(TextureLoader,
    url)]: suspend-react's [preload] of the key [[url]] starts its load
    unless the key is cached. *)
Definition preload (cache : suspend_cache) (url : string) : suspend_cache :=
  match cache_find [url] cache with
  | Some _ => cache
  | None => cache ++ [([url], Pending)]
  end.

(** Lines 91-94. *)
Definition preload_pages (pages : list page_descriptor) (cache : suspend_cache) : suspend_cache :=
  fold_left (fun c page => preload (preload c (texture_url (front page))) (texture_url (back page)))
            pages cache.

(** Lines 97-100: the URLs [useTexture] is asked for by a page, the key
    it suspends on. *)
Definition page_urls (d : page_descriptor) : cache_key :=
  [texture_url (front d); texture_url (back d)].

Inductive suspend_outcome :=
| Returned (textures : list nat)
| ThrowsPromise
| ThrowsError.

(** suspend-react's [suspend(fn, key)] during a render. *)
Definition suspend (key : cache_key) (cache : suspend_cache) : suspend_outcome * suspend_cache :=
  match cache_find key cache with
  | Some (Resolved ts) => (Returned ts, cache)
  | Some Rejected => (ThrowsError, cache)
  | Some Pending => (ThrowsPromise, cache)
  | None => (ThrowsPromise, cache ++ [(key, Pending)])
  end.

(** Lines 97-100: [const [picture, picture2] = useTexture([...])]
    suspends on the key of the page's two URLs. *)
Definition use_page_textures (d : page_descriptor) (cache : suspend_cache)
    : suspend_outcome * suspend_cache :=
  suspend (page_urls d) cache.

(** The loads of [key] settle: its pending entry takes the state [st]. *)
Definition settle (key : cache_key) (st : entry_state) (cache : suspend_cache) : suspend_cache :=
  map (fun '(k, s) =>
         match s with
         | Pending => if list_eq_dec string_dec k key then (k, st) else (k, s)
         | _ => (k, s)
         end) cache.

(** The loads of a key's URLs, one [TextureLoader.load] each: the
    textures in the order of the URLs, or [None] if one load fails. *)
Fixpoint load_urls (load : string -> option nat) (urls : list string) : option (list nat) :=
  match urls with
  | [] => Some []
  | u :: us =>
      match load u, load_urls load us with
      | Some t, Some ts => Some (t :: ts)
      | _, _ => None
      end
  end.

(** [useLoader]'s promise for [key]: [Promise.all] of the loads, which
    resolves to the array of textures or rejects with the first error. *)
Definition load_all (load : string -> option nat) (key : cache_key) : entry_state :=
  match load_urls load key with
  | Some ts => Resolved ts
  | None => Rejected
  end.

(** ** The cache *)

Lemma cache_find_app (key : cache_key) (c1 c2 : suspend_cache) :
  cache_find key (c1 ++ c2) =
  match cache_find key c1 with Some st => Some st | None => cache_find key c2 end.
Proof.
  induction c1 as [|[k st] c1 IH]; simpl; [reflexivity|].
  destruct (list_eq_dec string_dec k key); [reflexivity | exact IH].
Qed.

Lemma cache_find_In (key : cache_key) (cache : suspend_cache) :
  cache_find key cache <> None <-> In key (map fst cache).
Proof.
  induction cache as [|[k st] cache IH]; simpl; [tauto|].
  destruct (list_eq_dec string_dec k key) as [->|Hne]; [split; [auto | discriminate]|].
  rewrite IH. intuition congruence.
Qed.

Lemma in_preload (cache : suspend_cache) (url : string) (key : cache_key) :
  In key (map fst (preload cache url)) <-> In key (map fst cache) \/ key = [url].
Proof.
  unfold preload. destruct (cache_find [url] cache) eqn:E.
  - assert (In [url] (map fst cache)) by (apply cache_find_In; congruence).
    split; [tauto|]. intros [Hk | ->]; assumption.
  - rewrite map_app, in_app_iff. simpl. intuition congruence.
Qed.

Lemma preload_nodup (cache : suspend_cache) (url : string) :
  NoDup (map fst cache) -> NoDup (map fst (preload cache url)).
Proof.
  intros Hnd. unfold preload. destruct (cache_find [url] cache) eqn:E; [exact Hnd|].
  rewrite map_app. apply NoDup_app; [exact Hnd | repeat constructor; simpl; tauto |].
  intros k Hk [<-|[]]. apply cache_find_In in Hk. contradiction.
Qed.

Lemma in_preload_pages (pages : list page_descriptor) (cache : suspend_cache) (key : cache_key) :
  In key (map fst (preload_pages pages cache)) <->
  In key (map fst cache) \/ exists d u, In d pages /\ In u (page_urls d) /\ key = [u].
Proof.
  revert cache. induction pages as [|d pages IH]; intros cache; simpl.
  - split; [tauto|]. intros [H|[d [u [[] _]]]]; exact H.
  - unfold preload_pages in IH. rewrite IH, !in_preload. simpl. split.
    + intros [[[H|H]|H]|[d' [u [Hd' [Hu ->]]]]].
      * tauto.
      * right. exists d, (texture_url (front d)). auto.
      * right. exists d, (texture_url (back d)). auto.
      * right. exists d', u. auto.
    + intros [H|[d' [u [[<-|Hd'] [Hu ->]]]]]; [tauto| |right; eauto 6].
      destruct Hu as [<-|[<-|[]]]; tauto.
Qed.

Lemma preload_pages_nodup (pages : list page_descriptor) (cache : suspend_cache) :
  NoDup (map fst cache) -> NoDup (map fst (preload_pages pages cache)).
Proof.
  revert cache. induction pages as [|d pages IH]; intros cache Hnd; simpl; [exact Hnd|].
  apply IH. apply preload_nodup, preload_nodup, Hnd.
Qed.

(** Every key the preloading loop stores has one URL. *)
Lemma preload_pages_keys (pages : list page_descriptor) (key : cache_key) :
  In key (map fst (preload_pages pages [])) -> List.length key = 1%nat.
Proof.
  rewrite in_preload_pages. simpl. intros [[]|[d [u [_ [_ ->]]]]]. reflexivity.
Qed.

Lemma settle_keys (key : cache_key) (st : entry_state) (cache : suspend_cache) :
  map fst (settle key st cache) = map fst cache.
Proof.
  induction cache as [|[k s] cache IH]; simpl; [reflexivity|].
  rewrite IH. destruct s; [destruct (list_eq_dec string_dec k key)|..]; reflexivity.
Qed.

Lemma settle_app (key : cache_key) (st : entry_state) (c1 c2 : suspend_cache) :
  settle key st (c1 ++ c2) = settle key st c1 ++ settle key st c2.
Proof. apply map_app. Qed.

Lemma cache_find_settle_self (key : cache_key) (st : entry_state) :
  cache_find key (settle key st [(key, Pending)]) = Some st.
Proof.
  unfold settle. simpl. destruct (list_eq_dec string_dec key key) as [_|C]; [|contradiction].
  simpl. destruct (list_eq_dec string_dec key key) as [_|C]; [reflexivity | contradiction].
Qed.

(** ** The theorems *)

(** C18: After the preloading loop of lines 91-94 the cache holds one key
    per distinct texture URL of the book, each once: the key [[u]] for
    every URL [u] a page of the book will request, and nothing else. *)
Theorem preload_covers_pages (pages : list page_descriptor) :
  NoDup (map fst (preload_pages pages [])) /\
  forall key, In key (map fst (preload_pages pages [])) <->
              exists d u, In d pages /\ In u (page_urls d) /\ key = [u].
Proof.
  split; [apply preload_pages_nodup; constructor|].
  intros key. rewrite in_preload_pages. simpl. tauto.
Qed.


(** The first render of a page after the preloading. *)
Lemma first_render_misses (pages : list page_descriptor) (d : page_descriptor) :
  cache_find (page_urls d) (preload_pages pages []) = None /\
  use_page_textures d (preload_pages pages []) =
    (ThrowsPromise, preload_pages pages [] ++ [(page_urls d, Pending)]).
Proof.
  assert (H : cache_find (page_urls d) (preload_pages pages []) = None).
  { destruct (cache_find _ _) eqn:E; [|reflexivity]. exfalso.
    assert (Hin : In (page_urls d) (map fst (preload_pages pages []))) by (apply cache_find_In; congruence).
    apply preload_pages_keys in Hin. discriminate. }
  split; [exact H|]. unfold use_page_textures, suspend. now rewrite H.
Qed.

(** C23: The key a page suspends on, [[front, back]] (lines 97-100), is
    never one of the keys the preloading loop stored, which have one URL
    each: whatever the pages, the first render of a page misses the
    cache, throws a promise (the page suspends) and starts loads of its
    own; the textures the preloading loaded are never handed to a page. *)
Theorem page_render_misses_preload (pages : list page_descriptor) (d : page_descriptor) :
  cache_find (page_urls d) (preload_pages pages []) = None /\
  use_page_textures d (preload_pages pages []) =
    (ThrowsPromise, preload_pages pages [] ++ [(page_urls d, Pending)]).
Proof. apply first_render_misses. Qed.

(** C24: Once the loads of its key settle, a page renders the same way at
    every later render: [useTexture] returns the textures loaded from the
    page's URLs, [picture] from [`/textures/${front}.jpg`] and [picture2]
    from [`/textures/${back}.jpg`], if both loaded, and throws the load
    error if one failed; in both cases it leaves the cache as it was, so
    the next render does the same: the cache keeps a rejected entry and
    nothing in the program retries or catches it. *)
Theorem page_textures_settle (pages : list page_descriptor) (d : page_descriptor)
    (load : string -> option nat) :
  let cache := snd (use_page_textures d (preload_pages pages [])) in
  let settled := settle (page_urls d) (load_all load (page_urls d)) cache in
  use_page_textures d settled =
    (match load (texture_url (front d)), load (texture_url (back d)) with
     | Some picture, Some picture2 => Returned [picture; picture2]
     | _, _ => ThrowsError
     end, settled).
Proof.
  cbv zeta. destruct (first_render_misses pages d) as [Hmiss ->]. simpl snd.
  assert (Hfind : forall st, cache_find (page_urls d)
                    (settle (page_urls d) st (preload_pages pages [] ++ [(page_urls d, Pending)])) = Some st).
  { intros st. rewrite settle_app, cache_find_app.
    replace (cache_find (page_urls d) (settle (page_urls d) st (preload_pages pages []))) with (@None entry_state).
    - exact (cache_find_settle_self (page_urls d) st).
    - symmetry.
      destruct (cache_find (page_urls d) (settle (page_urls d) st (preload_pages pages []))) eqn:E;
        [|reflexivity]. exfalso.
      assert (Hin : In (page_urls d) (map fst (settle (page_urls d) st (preload_pages pages []))))
        by (apply cache_find_In; congruence).
      rewrite settle_keys in Hin. apply cache_find_In in Hin. contradiction. }
  unfold use_page_textures, suspend. rewrite !Hfind. unfold load_all, page_urls. simpl.
  destruct (load (texture_url (front d))), (load (texture_url (back d))); reflexivity.
Qed.
