(* ===== verification/Scene.v ===== *)
(** * The rendered scene and the flags of the mesh

    Models what [src/src/components/Book.jsx] hands to the renderer: the
    flags the [useMemo] of [Page] sets on its skinned mesh (lines
    142-144), as assignments to the own properties of a JavaScript
    object whose constructor ([Object3D]) set [castShadow = false],
    [receiveShadow = false] and [frustumCulled = true]; and the JSX tree
    of [Page] (lines 186-194: a group holding the mesh at
    [position-z = -number * PAGE_DEPTH + page * PAGE_DEPTH]) and of
    [Book] (lines 197-212: a group turned by [PI / 2] about y holding one
    [Page] per descriptor; the [...props] a page receives are empty once
    its named props are taken, so its group is not transformed).

    The theorem shows that line 144 assigns a property three.js never
    reads, so the mesh keeps its frustum culling. *)

From Stdlib Require Import List String Bool QArith Reals.
From stdpp Require Import base list.
From S2P Require Import Prelude Geometry Animator Book.
Import ListNotations.

Local Open Scope string_scope.

(** ** The flags of the mesh *)

(** The own boolean properties of a JavaScript object, the latest
    assignment first. *)
Definition js_props := list (string * bool).

(** [o[k] = v] *)
Definition js_set (k : string) (v : bool) (o : js_props) : js_props := (k, v) :: o.

(** [o[k]], [undefined] as [None]. *)
Fixpoint js_get (k : string) (o : js_props) : option bool :=
  match o with
  | [] => None
  | (k', v) :: o' => if String.eqb k k' then Some v else js_get k o'
  end.

(** The flags [new SkinnedMesh(...)] starts with (its [Object3D]
    constructor). *)
Definition new_mesh_props : js_props :=
  [("castShadow", false); ("receiveShadow", false); ("frustumCulled", true)].

(** Lines 142-144. *)
Definition mesh_flags_setup (o : js_props) : js_props :=
  js_set "frustcumCulled" false (js_set "receiveShadow" true (js_set "castShadow" true o)).

(** ** The JSX tree *)

Inductive node :=
| GroupNode (rotation_y : R) (children : list node)
| PrimitiveNode (object : nat) (position_z : Q).

(** Lines 186-194: the group of page [number] and its mesh. *)
Definition page_node (page : nat) (p : page_props) : node :=
  GroupNode 0%R [PrimitiveNode (number p) (page_z page (number p))].

(** Lines 197-212. *)
Definition book_node (pages : list page_descriptor) (page : nat) : node :=
  GroupNode (PI / 2)%R (map (page_node page) (book_props pages page)).

(** ** Theorems *)

(** C20: Lines 142-144 turn the shadows of the mesh on but leave its
    frustum culling as it was, on any object: the assignment of line 144
    goes to a new property [frustcumCulled] that three.js never reads. *)
Theorem mesh_flags_frustum_culled (o : js_props) :
  js_get "castShadow" (mesh_flags_setup o) = Some true /\
  js_get "receiveShadow" (mesh_flags_setup o) = Some true /\
  js_get "frustumCulled" (mesh_flags_setup o) = js_get "frustumCulled" o /\
  js_get "frustumCulled" (mesh_flags_setup new_mesh_props) = Some true.
Proof. repeat split; reflexivity. Qed.

